(** * STINGER Python client: update batches, phase calls and data views

    A shallow embedding of [src/py/stinger/stinger_net.py] (with the one
    method of [stinger_core.py] it calls, [Stinger.get_mapping]).

    The source is Python 2 code: byte strings are handed to [c_char_p]
    directly and [insertions_size / 2] is an integer division.  Python
    integers are unbounded; the counters and capacities of a stream start at
    [0] and [5000] and are only ever incremented, doubled or reset, so they
    are natural numbers here.  Fixed-width C fields are [Z] with the
    wrap-around of [c_int64] written out.  Pointers are those of a 64-bit
    process: an address is kept modulo [2^64] and an index into a pointer
    has to fit a C [ssize_t].

    The shared libraries [libstinger_net.so] and [libstinger_core.so] are not
    Python code; every entry point the wrapper calls is a field of the
    interface [LibStinger], and the theorems hold for any implementation.
    A library call is taken to come back with a value: a process that
    blocks for ever or dies inside the library has no Python outcome. *)

From Stdlib Require Import ZArith Lia String Ascii.
From stdpp Require Import base tactics option list.

Local Open Scope string_scope.
Local Open Scope Z_scope.
Local Open Scope list_scope.

(* ===================================================================== *)
(** ** Python values, exceptions and methods on a mutable object *)
(* ===================================================================== *)

(** The arguments the documented signatures admit: [int] or [str]. *)
Inductive pyval : Type :=
  | PInt (z : Z)
  | PStr (s : string).

Inductive exn : Type := TypeError | ValueError | IndexError.

(** How a call ends: it returns a value or raises. *)
Inductive outcome (A : Type) : Type :=
  | Return (a : A)
  | Raise (e : exn).
Arguments Return {A} a.
Arguments Raise {A} e.

Definition returned {A} (o : outcome A) : bool :=
  match o with Return _ => true | Raise _ => false end.

(** A method body over a mutable state [S]: the final state is kept when an
    exception is raised, since the mutations made before it remain. *)
Definition M (S A : Type) : Type := S -> S * outcome A.

Definition ret {S A} (a : A) : M S A := fun s => (s, Return a).
Definition raise {S A} (e : exn) : M S A := fun s => (s, Raise e).
Definition bind {S A B} (m : M S A) (k : A -> M S B) : M S B :=
  fun s => match m s with
           | (s', Return a) => k a s'
           | (s', Raise e) => (s', Raise e)
           end.
Definition lift {S A} (o : outcome A) : M S A := fun s => (s, o).
Definition modify {S} (f : S -> S) : M S unit := fun s => (f s, Return tt).
Definition gets {S A} (f : S -> A) : M S A := fun s => (s, Return (f s)).

Declare Scope py_scope.
Delimit Scope py_scope with py.
Notation "'do' x <- m ; k" := (bind m (fun x => k))
  (at level 10, x name, m at level 100, k at level 200,
   format "'[v' 'do'  x  <-  m ; '/' k ']'") : py_scope.
Notation "m >> k" := (bind m (fun _ => k))
  (at level 65, right associativity) : py_scope.
Local Open Scope py_scope.

(* ===================================================================== *)
(** ** ctypes *)
(* ===================================================================== *)

Module ctypes.

(** [c_int64(v)]: an [int] is reduced modulo [2^64] into the signed range
    (ctypes does no overflow check); a [str] is a [TypeError]. *)
Definition wrap64 (z : Z) : Z := (z + 2 ^ 63) mod 2 ^ 64 - 2 ^ 63.

Definition c_int64 (v : pyval) : outcome Z :=
  match v with
  | PInt z => Return (wrap64 z)
  | PStr _ => Raise TypeError
  end.

(** A [char *]: null, the buffer of a Python string, or a bare address
    (what [c_char_p(n)] gives for an integer [n]). *)
Inductive char_p : Type :=
  | NULL
  | StrPtr (s : string)
  | RawPtr (addr : Z).

Definition c_char_p (v : pyval) : outcome char_p :=
  match v with
  | PStr s => Return (StrPtr s)
  | PInt z => Return (if decide (z mod 2 ^ 64 = 0) then NULL
                      else RawPtr (z mod 2 ^ 64))
  end.

(** [memmove(dst, src, sizeof(R * k))] on two arrays of records: the first
    [k] records of [dst] are overwritten by those of [src].  ([k] never
    exceeds the length of [src] in a stream built by the constructor.) *)
Definition memmove {R} (dst src : list R) (k : nat) : list R :=
  take k src ++ drop k dst.

(** What a pointer holds: [cast] keeps the low 64 bits of a Python [int],
    and pointer arithmetic is done modulo [2^64]. *)
Definition wrap_addr (z : Z) : Z := z mod 2 ^ 64.

(** The index of [pointer[i]] is converted to a C [ssize_t] first: an
    [int] that does not fit is an [IndexError]. *)
Definition as_ssize_t (i : Z) : outcome Z :=
  if decide (- 2 ^ 63 <= i < 2 ^ 63) then Return i else Raise IndexError.

End ctypes.
Import ctypes.

(** [isinstance(v, str)] *)
Definition isinstance_str (v : pyval) : bool :=
  match v with PStr _ => true | PInt _ => false end.

(* ===================================================================== *)
(** ** The update records (ctypes structures) *)
(* ===================================================================== *)

Module StingerEdgeUpdate.

Record t : Type := mk {
  etype : Z;
  etype_str : char_p;
  source : Z;
  source_str : char_p;
  destination : Z;
  destination_str : char_p;
  weight : Z;
  time : Z;
  result : Z;
  meta_index : Z }.

(** What [(StingerEdgeUpdate * n)()] fills every slot with. *)
Definition zero : t := mk 0 NULL 0 NULL 0 NULL 0 0 0 0.

Definition set_etype (v : Z) (r : t) : t :=
  mk v (etype_str r) (source r) (source_str r) (destination r)
     (destination_str r) (weight r) (time r) (result r) (meta_index r).
Definition set_etype_str (v : char_p) (r : t) : t :=
  mk (etype r) v (source r) (source_str r) (destination r)
     (destination_str r) (weight r) (time r) (result r) (meta_index r).
Definition set_source (v : Z) (r : t) : t :=
  mk (etype r) (etype_str r) v (source_str r) (destination r)
     (destination_str r) (weight r) (time r) (result r) (meta_index r).
Definition set_source_str (v : char_p) (r : t) : t :=
  mk (etype r) (etype_str r) (source r) v (destination r)
     (destination_str r) (weight r) (time r) (result r) (meta_index r).
Definition set_destination (v : Z) (r : t) : t :=
  mk (etype r) (etype_str r) (source r) (source_str r) v
     (destination_str r) (weight r) (time r) (result r) (meta_index r).
Definition set_destination_str (v : char_p) (r : t) : t :=
  mk (etype r) (etype_str r) (source r) (source_str r) (destination r)
     v (weight r) (time r) (result r) (meta_index r).
Definition set_weight (v : Z) (r : t) : t :=
  mk (etype r) (etype_str r) (source r) (source_str r) (destination r)
     (destination_str r) v (time r) (result r) (meta_index r).
Definition set_time (v : Z) (r : t) : t :=
  mk (etype r) (etype_str r) (source r) (source_str r) (destination r)
     (destination_str r) (weight r) v (result r) (meta_index r).

End StingerEdgeUpdate.

Module StingerVertexUpdate.

Record t : Type := mk {
  vertex : Z;
  vertex_str : char_p;
  type : Z;
  type_str : char_p;
  set_weight : Z;
  incr_weight : Z;
  meta_index : Z }.

Definition zero : t := mk 0 NULL 0 NULL 0 0 0.

Definition set_vertex (v : Z) (r : t) : t :=
  mk v (vertex_str r) (type r) (type_str r) (set_weight r) (incr_weight r)
     (meta_index r).
Definition set_vertex_str (v : char_p) (r : t) : t :=
  mk (vertex r) v (type r) (type_str r) (set_weight r) (incr_weight r)
     (meta_index r).
Definition set_type (v : Z) (r : t) : t :=
  mk (vertex r) (vertex_str r) v (type_str r) (set_weight r) (incr_weight r)
     (meta_index r).
Definition set_type_str (v : char_p) (r : t) : t :=
  mk (vertex r) (vertex_str r) (type r) v (set_weight r) (incr_weight r)
     (meta_index r).
Definition set_incr_weight (v : Z) (r : t) : t :=
  mk (vertex r) (vertex_str r) (type r) (type_str r) (set_weight r) v
     (meta_index r).

(** The structure has no field called [weight].  Assigning
    [record.weight = v] only sets an attribute on the temporary Python
    object that wraps the slot: the slot itself is not written. *)
Definition set_attr_weight (v : Z) (r : t) : t := r.

End StingerVertexUpdate.

(* ===================================================================== *)
(** ** Writing one slot of a ctypes array *)
(* ===================================================================== *)

(** The statements [arr[idx].field = rhs] of one add method all address the
    same slot.  They run over [Some r] when the slot exists and over [None]
    when [idx] is out of range. *)
Section Slot.
Context {R : Type}.

(** [arr[idx].field = rhs]: the right-hand side is evaluated first, then
    the slot is indexed ([IndexError] when out of range) and written. *)
Definition assign {V} (setter : V -> R -> R) (rhs : outcome V)
  : M (option R) unit :=
  do v <- lift rhs;
  fun slot => match slot with
              | Some r => (Some (setter v r), Return tt)
              | None => (None, Raise IndexError)
              end.

Definition at_index (prog : M (option R) unit) (idx : nat) (arr : list R)
  : list R * outcome unit :=
  match prog (arr !! idx) with
  | (Some r', o) => (<[idx := r']> arr, o)
  | (None, o) => (arr, o)
  end.

(** The growth block at the head of each add method: when the count has
    reached the capacity, double the capacity, allocate a zeroed array of
    the new capacity, keep the old array referenced, and copy
    [capacity / 2] records (the old capacity) into the new one. *)
Definition grow (zero : R) (size count : nat) (arr : list R)
           (refs : list (list R)) : nat * list R * list (list R) :=
  if decide (size <= count)%nat then
    let size' := (size * 2)%nat in
    let tmp := replicate size' zero in
    let refs' := refs ++ [arr] in
    (size', memmove tmp arr (size' / 2), refs')
  else (size, arr, refs).

End Slot.

(* ===================================================================== *)
(** ** The phase protocol *)
(* ===================================================================== *)

Module Phase.

(** The six phase requests of an algorithm session. *)
Inductive request : Type :=
  | BeginInit | EndInit | BeginPre | EndPre | BeginPost | EndPost.

(** Modelled from the spec: the phase automaton of section 3
    ([PhaseState]); the Python sources hold no such state.  A begin is
    legal from [Idle] only, an end only inside its own phase. *)
Inductive PhaseState : Type := Idle | InInit | InPre | InPost.

(** Modelled from the spec: the transitions section 3 lists,
    Idle -> InInit -> Idle -> InPre -> Idle -> InPost -> Idle; no other
    request is allowed in a phase. *)
Definition next (p : PhaseState) (c : request) : option PhaseState :=
  match p, c with
  | Idle, BeginInit => Some InInit
  | InInit, EndInit => Some Idle
  | Idle, BeginPre => Some InPre
  | InPre, EndPre => Some Idle
  | Idle, BeginPost => Some InPost
  | InPost, EndPost => Some Idle
  | _, _ => None
  end.

(** Modelled from the spec: a sequence of requests keeps to the protocol
    when every request is legal in the phase the ones before it lead
    to. *)
Fixpoint follows (p : PhaseState) (cs : list request) : bool :=
  match cs with
  | [] => true
  | c :: cs' =>
      match next p c with
      | Some p' => follows p' cs'
      | None => false
      end
  end.

End Phase.

(* ===================================================================== *)
(** ** The shared libraries *)
(* ===================================================================== *)

(** [ctypes.c_int(v)] and [ctypes.c_bool]/[c_int] of a Python [bool]. *)
Definition c_int (z : Z) : Z := (z + 2 ^ 31) mod 2 ^ 32 - 2 ^ 31.

(** The arguments of one [stream_send_batch] call, in the order the wrapper
    passes them. *)
Record send_batch_args : Type := {
  arg_sock_handle : Z;
  arg_only_strings : Z;
  arg_insertions : list StingerEdgeUpdate.t;
  arg_insertions_count : Z;
  arg_deletions : list StingerEdgeUpdate.t;
  arg_deletions_count : Z;
  arg_vertex_updates : list StingerVertexUpdate.t;
  arg_vertex_updates_count : Z;
  arg_undirected : bool }.

(** The entry points of [libstinger_net] and [libstinger_core] the wrapper
    calls, over a library and server state [L].  No [restype] is declared
    for any of them, so each call hands back a C [int]; the two lookups only
    read the state. *)
Class LibStinger (L : Type) : Type := {
  stream_connect : string -> Z -> L -> Z * L;
  stream_send_batch : send_batch_args -> L -> Z * L;
  stinger_alg_begin_init : Z -> L -> Z * L;
  stinger_alg_end_init : Z -> L -> Z * L;
  stinger_alg_begin_pre : Z -> L -> Z * L;
  stinger_alg_end_pre : Z -> L -> Z * L;
  stinger_alg_begin_post : Z -> L -> Z * L;
  stinger_alg_end_post : Z -> L -> Z * L;
  stinger_alg_max_vertices : Z -> L -> Z;
  stinger_mapping_lookup : Z -> string -> Z -> L -> Z }.

(* ===================================================================== *)
(** ** StingerStream *)
(* ===================================================================== *)

Module StingerStream.

Record t : Type := mk {
  sock_handle : Z;
  insertions_size : nat;
  insertions : list StingerEdgeUpdate.t;
  insertions_refs : list (list StingerEdgeUpdate.t);
  insertions_count : nat;
  deletions_size : nat;
  deletions : list StingerEdgeUpdate.t;
  deletions_refs : list (list StingerEdgeUpdate.t);
  deletions_count : nat;
  vertex_updates_size : nat;
  vertex_updates : list StingerVertexUpdate.t;
  vertex_updates_refs : list (list StingerVertexUpdate.t);
  vertex_updates_count : nat;
  only_strings : bool;
  undirected : bool }.

Definition set_insertions_size (v : nat) (self : t) : t :=
  mk (sock_handle self) v (insertions self) (insertions_refs self)
    (insertions_count self) (deletions_size self) (deletions self)
    (deletions_refs self) (deletions_count self) (vertex_updates_size self)
    (vertex_updates self) (vertex_updates_refs self)
    (vertex_updates_count self) (only_strings self) (undirected self).
Definition set_insertions (v : list StingerEdgeUpdate.t) (self : t) : t :=
  mk (sock_handle self) (insertions_size self) v (insertions_refs self)
    (insertions_count self) (deletions_size self) (deletions self)
    (deletions_refs self) (deletions_count self) (vertex_updates_size self)
    (vertex_updates self) (vertex_updates_refs self)
    (vertex_updates_count self) (only_strings self) (undirected self).
Definition set_insertions_refs (v : list (list StingerEdgeUpdate.t)) (self : t) : t :=
  mk (sock_handle self) (insertions_size self) (insertions self) v
    (insertions_count self) (deletions_size self) (deletions self)
    (deletions_refs self) (deletions_count self) (vertex_updates_size self)
    (vertex_updates self) (vertex_updates_refs self)
    (vertex_updates_count self) (only_strings self) (undirected self).
Definition set_insertions_count (v : nat) (self : t) : t :=
  mk (sock_handle self) (insertions_size self) (insertions self)
    (insertions_refs self) v (deletions_size self) (deletions self)
    (deletions_refs self) (deletions_count self) (vertex_updates_size self)
    (vertex_updates self) (vertex_updates_refs self)
    (vertex_updates_count self) (only_strings self) (undirected self).
Definition set_deletions_size (v : nat) (self : t) : t :=
  mk (sock_handle self) (insertions_size self) (insertions self)
    (insertions_refs self) (insertions_count self) v (deletions self)
    (deletions_refs self) (deletions_count self) (vertex_updates_size self)
    (vertex_updates self) (vertex_updates_refs self)
    (vertex_updates_count self) (only_strings self) (undirected self).
Definition set_deletions (v : list StingerEdgeUpdate.t) (self : t) : t :=
  mk (sock_handle self) (insertions_size self) (insertions self)
    (insertions_refs self) (insertions_count self) (deletions_size self) v
    (deletions_refs self) (deletions_count self) (vertex_updates_size self)
    (vertex_updates self) (vertex_updates_refs self)
    (vertex_updates_count self) (only_strings self) (undirected self).
Definition set_deletions_refs (v : list (list StingerEdgeUpdate.t)) (self : t) : t :=
  mk (sock_handle self) (insertions_size self) (insertions self)
    (insertions_refs self) (insertions_count self) (deletions_size self)
    (deletions self) v (deletions_count self) (vertex_updates_size self)
    (vertex_updates self) (vertex_updates_refs self)
    (vertex_updates_count self) (only_strings self) (undirected self).
Definition set_deletions_count (v : nat) (self : t) : t :=
  mk (sock_handle self) (insertions_size self) (insertions self)
    (insertions_refs self) (insertions_count self) (deletions_size self)
    (deletions self) (deletions_refs self) v (vertex_updates_size self)
    (vertex_updates self) (vertex_updates_refs self)
    (vertex_updates_count self) (only_strings self) (undirected self).
Definition set_vertex_updates_size (v : nat) (self : t) : t :=
  mk (sock_handle self) (insertions_size self) (insertions self)
    (insertions_refs self) (insertions_count self) (deletions_size self)
    (deletions self) (deletions_refs self) (deletions_count self) v
    (vertex_updates self) (vertex_updates_refs self)
    (vertex_updates_count self) (only_strings self) (undirected self).
Definition set_vertex_updates (v : list StingerVertexUpdate.t) (self : t) : t :=
  mk (sock_handle self) (insertions_size self) (insertions self)
    (insertions_refs self) (insertions_count self) (deletions_size self)
    (deletions self) (deletions_refs self) (deletions_count self)
    (vertex_updates_size self) v (vertex_updates_refs self)
    (vertex_updates_count self) (only_strings self) (undirected self).
Definition set_vertex_updates_refs (v : list (list StingerVertexUpdate.t)) (self : t) : t :=
  mk (sock_handle self) (insertions_size self) (insertions self)
    (insertions_refs self) (insertions_count self) (deletions_size self)
    (deletions self) (deletions_refs self) (deletions_count self)
    (vertex_updates_size self) (vertex_updates self) v
    (vertex_updates_count self) (only_strings self) (undirected self).
Definition set_vertex_updates_count (v : nat) (self : t) : t :=
  mk (sock_handle self) (insertions_size self) (insertions self)
    (insertions_refs self) (insertions_count self) (deletions_size self)
    (deletions self) (deletions_refs self) (deletions_count self)
    (vertex_updates_size self) (vertex_updates self)
    (vertex_updates_refs self) v (only_strings self) (undirected self).
Definition set_only_strings (v : bool) (self : t) : t :=
  mk (sock_handle self) (insertions_size self) (insertions self)
    (insertions_refs self) (insertions_count self) (deletions_size self)
    (deletions self) (deletions_refs self) (deletions_count self)
    (vertex_updates_size self) (vertex_updates self)
    (vertex_updates_refs self) (vertex_updates_count self) v
    (undirected self).

Module E := StingerEdgeUpdate.
Module V := StingerVertexUpdate.

(** [__init__(host, port, strings, undirected)], lines 119-145.  The
    vertex-update array is allocated with [deletions_size] slots, as the
    source writes it. *)
Definition __init__ `{LibStinger L} (host : string) (port : Z)
           (strings undirected : bool) : M L t :=
  fun lib =>
    let '(sock, lib') := stream_connect host (c_int port) lib in
    (lib', Return
       {| sock_handle := sock;
          insertions_size := 5000;
          insertions := replicate 5000 E.zero;
          insertions_refs := [];
          insertions_count := 0;
          deletions_size := 5000;
          deletions := replicate 5000 E.zero;
          deletions_refs := [];
          deletions_count := 0;
          vertex_updates_size := 5000;
          vertex_updates := replicate 5000 V.zero;
          vertex_updates_refs := [];
          vertex_updates_count := 0;
          only_strings := strings;
          undirected := undirected |}).

(** Lines 165-171, 202-208 and 238-244. *)
Definition grow_insertions (self : t) : t :=
  let '(size, arr, refs) :=
    grow E.zero (insertions_size self)
         (insertions_count self) (insertions self) (insertions_refs self) in
  set_insertions arr (set_insertions_refs refs (set_insertions_size size self)).

Definition grow_deletions (self : t) : t :=
  let '(size, arr, refs) :=
    grow E.zero (deletions_size self)
         (deletions_count self) (deletions self) (deletions_refs self) in
  set_deletions arr (set_deletions_refs refs (set_deletions_size size self)).

Definition grow_vertex_updates (self : t) : t :=
  let '(size, arr, refs) :=
    grow V.zero (vertex_updates_size self)
         (vertex_updates_count self) (vertex_updates self)
         (vertex_updates_refs self) in
  set_vertex_updates arr
    (set_vertex_updates_refs refs (set_vertex_updates_size size self)).

(** Run the field assignments of one method on the slot at the count. *)
Definition on_insertion (prog : M (option E.t) unit)
  : M t unit :=
  fun self =>
    let '(arr, o) := at_index prog (insertions_count self) (insertions self) in
    (set_insertions arr self, o).

Definition on_deletion (prog : M (option E.t) unit)
  : M t unit :=
  fun self =>
    let '(arr, o) := at_index prog (deletions_count self) (deletions self) in
    (set_deletions arr self, o).

Definition on_vertex_update (prog : M (option V.t) unit)
  : M t unit :=
  fun self =>
    let '(arr, o) :=
      at_index prog (vertex_updates_count self) (vertex_updates self) in
    (set_vertex_updates arr self, o).

(** The endpoint and edge-type assignments, written out identically in
    [add_insert] (lines 173-185) and [add_delete] (lines 210-222). *)
Definition edge_endpoints (strings : bool) (vfrom vto : pyval)
  : M (option E.t) unit :=
  if strings then
    assign E.set_source_str (c_char_p vfrom) >>
    assign E.set_destination_str (c_char_p vto)
  else
    assign E.set_source_str (Return NULL) >>
    assign E.set_destination_str (Return NULL) >>
    assign E.set_source (c_int64 vfrom) >>
    assign E.set_destination (c_int64 vto).

Definition edge_type (etype : pyval) : M (option E.t) unit :=
  if isinstance_str etype then
    assign E.set_etype_str (c_char_p etype)
  else
    assign E.set_etype (c_int64 etype).

(** Lines 173-188 of [add_insert] and lines 210-222 of [add_delete]. *)
Definition insert_fields (strings : bool)
           (vfrom vto etype weight ts : pyval) : M (option E.t) unit :=
  edge_endpoints strings vfrom vto >>
  edge_type etype >>
  assign E.set_weight (c_int64 weight) >>
  assign E.set_time (c_int64 ts).

Definition delete_fields (strings : bool) (vfrom vto etype : pyval)
  : M (option E.t) unit :=
  edge_endpoints strings vfrom vto >>
  edge_type etype.

(** [add_insert], lines 147-190. *)
Definition add_insert (vfrom vto etype weight ts : pyval)
           (insert_strings : option bool) : M t unit :=
  modify (fun self =>
    set_only_strings
      (match insert_strings with
       | Some b => b
       | None => only_strings self
       end) self) >>
  modify grow_insertions >>
  do strings <- gets only_strings;
  on_insertion (insert_fields strings vfrom vto etype weight ts) >>
  modify (fun self => set_insertions_count (insertions_count self + 1) self).

(** [add_delete], lines 192-224. *)
Definition add_delete (vfrom vto etype : pyval) : M t unit :=
  modify grow_deletions >>
  do strings <- gets only_strings;
  on_deletion (delete_fields strings vfrom vto etype) >>
  modify (fun self => set_deletions_count (deletions_count self + 1) self).

(** Lines 246-258 of [add_vertex_update]. *)
Definition vertex_fields (strings : bool)
           (vtx vtype weight incr_weight : pyval) : M (option V.t) unit :=
  (if strings then
     assign V.set_vertex_str (c_char_p vtx)
   else
     assign V.set_vertex (c_int64 vtx) >>
     assign V.set_vertex_str (Return NULL)) >>
  (if isinstance_str vtype then
     assign V.set_type_str (c_char_p vtype)
   else
     assign V.set_type (c_int64 vtype)) >>
  assign V.set_attr_weight (c_int64 weight) >>
  assign V.set_incr_weight (c_int64 incr_weight).

(** [add_vertex_update], lines 226-260. *)
Definition add_vertex_update (vtx vtype weight incr_weight : pyval)
  : M t unit :=
  modify grow_vertex_updates >>
  do strings <- gets only_strings;
  on_vertex_update (vertex_fields strings vtx vtype weight incr_weight) >>
  modify (fun self =>
    set_vertex_updates_count (vertex_updates_count self + 1) self).

(** The call [send_batch] makes, lines 268-273. *)
Definition batch_args (self : t) : send_batch_args :=
  {| arg_sock_handle := c_int (sock_handle self);
     arg_only_strings := c_int (Z.b2z (only_strings self));
     arg_insertions := insertions self;
     arg_insertions_count := wrap64 (Z.of_nat (insertions_count self));
     arg_deletions := deletions self;
     arg_deletions_count := wrap64 (Z.of_nat (deletions_count self));
     arg_vertex_updates := vertex_updates self;
     arg_vertex_updates_count :=
       wrap64 (Z.of_nat (vertex_updates_count self));
     arg_undirected := undirected self |}.

(** [send_batch], lines 262-279: the value the library call hands back is
    dropped, then the counts and the reference lists are reset. *)
Definition send_batch `{LibStinger L} : M (t * L) unit :=
  fun '(self, lib) =>
    let '(_, lib') := stream_send_batch (batch_args self) lib in
    let self := set_insertions_count 0 self in
    let self := set_deletions_count 0 self in
    let self := set_vertex_updates_count 0 self in
    let self := set_insertions_refs [] self in
    let self := set_deletions_refs [] self in
    let self := set_vertex_updates_refs [] self in
    ((self, lib'), Return tt).

(** A method that does not touch the library, run next to its state. *)
Definition local {L A} (m : M t A) : M (t * L) A :=
  fun '(self, lib) => let '(self', o) := m self in ((self', lib), o).

(** The calls a client makes on one stream, and a client that makes them
    one after the other, going on after a call that raised. *)
Inductive call : Type :=
  | AddInsert (vfrom vto etype weight ts : pyval)
              (insert_strings : option bool)
  | AddDelete (vfrom vto etype : pyval)
  | AddVertexUpdate (vtx vtype weight incr_weight : pyval)
  | SendBatch.

Definition exec `{LibStinger L} (c : call) : M (t * L) unit :=
  match c with
  | AddInsert vfrom vto etype weight ts insert_strings =>
      local (add_insert vfrom vto etype weight ts insert_strings)
  | AddDelete vfrom vto etype => local (add_delete vfrom vto etype)
  | AddVertexUpdate vtx vtype weight incr_weight =>
      local (add_vertex_update vtx vtype weight incr_weight)
  | SendBatch => send_batch
  end.

Fixpoint run `{LibStinger L} (cs : list call) (w : t * L)
  : (t * L) * list (outcome unit) :=
  match cs with
  | [] => (w, [])
  | c :: cs' =>
      let '(w', o) := exec c w in
      let '(w'', os) := run cs' w' in
      (w'', o :: os)
  end.

End StingerStream.


(* ===================================================================== *)
(** ** Stinger (stinger_core.py) *)
(* ===================================================================== *)

Module Stinger.

(** The wrapper object holds the pointer to the graph structure. *)
Record t : Type := mk { s : Z }.

Definition raw (self : t) : Z := s self.

(** [get_mapping], lines 89-95: the name and its length go to
    [stinger_mapping_lookup]. *)
Definition get_mapping `{LibStinger L} (lib : L) (self : t) (name : string)
  : Z :=
  stinger_mapping_lookup (s self) name (Z.of_nat (String.length name)) lib.

End Stinger.

(* ===================================================================== *)
(** ** StingerAlg *)
(* ===================================================================== *)

Module StingerAlg.
Import Phase.

(** [alg_ptr] is what the registration call handed back. *)
Record t : Type := mk { alg_ptr : Z }.

(** Lines 294-339: each method is one library call whose value is
    dropped. *)
Definition begin_init `{LibStinger L} (self : t) : M L unit :=
  fun lib => ((stinger_alg_begin_init (alg_ptr self) lib).2, Return tt).
Definition end_init `{LibStinger L} (self : t) : M L unit :=
  fun lib => ((stinger_alg_end_init (alg_ptr self) lib).2, Return tt).
Definition begin_pre `{LibStinger L} (self : t) : M L unit :=
  fun lib => ((stinger_alg_begin_pre (alg_ptr self) lib).2, Return tt).
Definition end_pre `{LibStinger L} (self : t) : M L unit :=
  fun lib => ((stinger_alg_end_pre (alg_ptr self) lib).2, Return tt).
Definition begin_post `{LibStinger L} (self : t) : M L unit :=
  fun lib => ((stinger_alg_begin_post (alg_ptr self) lib).2, Return tt).
Definition end_post `{LibStinger L} (self : t) : M L unit :=
  fun lib => ((stinger_alg_end_post (alg_ptr self) lib).2, Return tt).

Definition exec `{LibStinger L} (self : t) (c : request) : M L unit :=
  match c with
  | BeginInit => begin_init self
  | EndInit => end_init self
  | BeginPre => begin_pre self
  | EndPre => end_pre self
  | BeginPost => begin_post self
  | EndPost => end_post self
  end.

(** A client making the calls one after the other. *)
Fixpoint run `{LibStinger L} (self : t) (cs : list request) (lib : L)
  : L * list (outcome unit) :=
  match cs with
  | [] => (lib, [])
  | c :: cs' =>
      let '(lib', o) := exec self c lib in
      let '(lib'', os) := run self cs' lib' in
      (lib'', o :: os)
  end.

(** The library entry point behind each request, and the requests a
    library is handed when they are passed on as they come. *)
Definition entry `{LibStinger L} (c : request) : Z -> L -> Z * L :=
  match c with
  | BeginInit => stinger_alg_begin_init
  | EndInit => stinger_alg_end_init
  | BeginPre => stinger_alg_begin_pre
  | EndPre => stinger_alg_end_pre
  | BeginPost => stinger_alg_begin_post
  | EndPost => stinger_alg_end_post
  end.

Definition forwarded `{LibStinger L} (self : t) (cs : list request)
           (lib : L) : L :=
  foldl (fun lib c => (entry c (alg_ptr self) lib).2) lib cs.

(** The phase nesting law: a session started in [Idle] has some call
    raise whenever the calls break the protocol. *)
Definition rejects_violations `{LibStinger L} (lib : L) : Prop :=
  forall self cs,
    follows Idle cs = false ->
    Exists (fun o => returned o = false) (run self cs lib).2.

End StingerAlg.

(* ===================================================================== *)
(** ** StingerDataArray *)
(* ===================================================================== *)

Module StingerDataArray.

(** *** Python built-ins used by the constructor *)

(** The whitespace [str.split()] separates on. *)
Definition is_space (c : ascii) : bool :=
  let n := nat_of_ascii c in
  ((9 <=? n) && (n <=? 13) || (n =? 32))%nat.

(** [s.split()]: the maximal runs of non-blank characters. *)
Fixpoint split_from (cur : string) (s : string) : list string :=
  match s with
  | EmptyString => if String.eqb cur "" then [] else [cur]
  | String c s' =>
      if is_space c then
        if String.eqb cur "" then split_from "" s'
        else cur :: split_from "" s'
      else split_from (cur ++ String c "")%string s'
  end.
Definition split (s : string) : list string := split_from "" s.

(** [l.index(x)]: the first position of [x], or [ValueError]. *)
Fixpoint index (x : string) (l : list string) : outcome nat :=
  match l with
  | [] => Raise ValueError
  | y :: l' =>
      if String.eqb y x then Return 0%nat
      else match index x l' with
           | Return i => Return (S i)
           | Raise e => Raise e
           end
  end.

(** [l[i]] and [s[i]] for a non-negative [i]. *)
Definition list_getitem {A} (l : list A) (i : nat) : outcome A :=
  match l !! i with Some a => Return a | None => Raise IndexError end.
Definition str_getitem (s : string) (i : nat) : outcome ascii :=
  match String.get i s with Some c => Return c | None => Raise IndexError end.

(** *** The view *)

(** The byte width the offset computation gives a type tag, lines
    382-384. *)
Definition width (c : ascii) : Z :=
  if (Ascii.eqb c "d" || Ascii.eqb c "l")%char then 8
  else if (Ascii.eqb c "f" || Ascii.eqb c "i")%char then 4
  else 1.

Inductive ctype : Type := C_double | C_float | C_int64 | C_int32 | C_int8.

(** The pointer type the address is cast to, lines 390-399. *)
Definition pointer_type (data_type : ascii) : ctype :=
  if Ascii.eqb data_type "d" then C_double
  else if Ascii.eqb data_type "f" then C_float
  else if Ascii.eqb data_type "l" then C_int64
  else if Ascii.eqb data_type "i" then C_int32
  else C_int8.

Definition sizeof (ty : ctype) : Z :=
  match ty with
  | C_double | C_int64 => 8
  | C_float | C_int32 => 4
  | C_int8 => 1
  end.

(** [data_ptr] is a Python [int] or a [c_void_p], whose [value] is [None]
    for a null pointer. *)
Inductive pointer : Type :=
  | IntPtr (z : Z)
  | VoidPtr (value : option Z).

(** [if not isinstance(data_ptr, int): data_ptr = data_ptr.value] *)
Definition int_or_value (data_ptr : pointer) : option Z :=
  match data_ptr with IntPtr z => Some z | VoidPtr value => value end.

Record t : Type := mk {
  field_name : string;
  data_type : ascii;
  nv : Z;
  s : Stinger.t;
  data : Z }.

(** What the constructor does besides computing: it prints the split
    descriptor and asks the library for the number of vertices. *)
Inductive event : Type :=
  | Printed (tokens : list string)
  | MaxVertices (handle : Z).

Definition emit (e : event) : M (list event) unit :=
  modify (fun log => log ++ [e]).

(** [__init__], lines 354-399.  The sum of line 388 is a Python [int];
    the [cast] of lines 390-399 makes it the address the pointer holds. *)
Definition __init__ `{LibStinger L} (lib : L) (data_ptr : pointer)
           (data_desc field_name : string) (s : Stinger.t)
  : M (list event) t :=
  let data_desc := split data_desc in
  let data_ptr := int_or_value data_ptr in
  emit (Printed data_desc) >>
  do field_index <- lift (index field_name (drop 1 data_desc));
  do tags <- lift (list_getitem data_desc 0);
  do data_type <- lift (str_getitem tags field_index);
  emit (MaxVertices (Stinger.raw s)) >>
  let nv := stinger_alg_max_vertices (Stinger.raw s) lib in
  let offset :=
    foldl Z.add 0 (width <$> take field_index (list_ascii_of_string tags)) in
  do data <- lift (match data_ptr with
                   | Some p => Return (wrap_addr (p + offset * nv))
                   | None => Raise TypeError
                   end);
  ret (mk field_name data_type nv s data).

(** *** Element access *)

(** The process memory a view points into, byte by byte.  An element is
    read and written as the [sizeof] bytes from its address on; C gives no
    meaning to an element that would run past the end of the address
    space. *)
Definition mem : Type := Z -> Byte.byte.

Definition load (m : mem) (addr : Z) (n : Z) : list Byte.byte :=
  m <$> seqZ addr n.

Definition store (addr : Z) (bs : list Byte.byte) (m : mem) : mem :=
  fun a =>
    if decide (addr <= a)
    then default (m a) (bs !! Z.to_nat (a - addr))
    else m a.

(** An element as ctypes holds it: its type and its bytes in memory.
    (The conversion between such a value and a Python number is ctypes'
    own and is left out.) *)
Record cdata : Type := CData { c_type : ctype; c_raw : list Byte.byte }.

(** What the accessors hand back: an element, or the Python integer of
    the [else] branches. *)
Inductive item : Type :=
  | PyInt (z : Z)
  | Elem (v : cdata).

(** [pointer[i] = k]: [k] must be of the pointer's element type. *)
Definition to_raw (ty : ctype) (k : cdata) : outcome (list Byte.byte) :=
  match ty, c_type k with
  | C_double, C_double | C_float, C_float | C_int64, C_int64
  | C_int32, C_int32 | C_int8, C_int8 => Return (c_raw k)
  | _, _ => Raise TypeError
  end.

Definition element_type (self : t) : ctype := pointer_type (data_type self).

(** The address of [self.data[i]]: ctypes computes the offset
    [i * size] in a C [ssize_t] and adds it to the pointer. *)
Definition element_addr (self : t) (i : Z) : Z :=
  wrap_addr (data self + wrap64 (i * sizeof (element_type self))).

(** [self.data[i]] for reading and for writing: the index must fit a
    [ssize_t], then a null pointer is refused with [ValueError]; what is
    left is the address of the element. *)
Definition item_addr (self : t) (i : Z) : outcome Z :=
  match as_ssize_t i with
  | Return i =>
      if decide (data self = 0) then Raise ValueError
      else Return (element_addr self i)
  | Raise e => Raise e
  end.

(** [if isinstance(i, str): i = self.s.get_mapping(i)] *)
Definition resolve `{LibStinger L} (lib : L) (self : t) (i : pyval) : Z :=
  match i with
  | PStr name => Stinger.get_mapping lib (s self) name
  | PInt z => z
  end.

(** [__getitem__], lines 401-412. *)
Definition __getitem__ `{LibStinger L} (lib : L) (self : t) (i : pyval)
           (m : mem) : outcome item :=
  let i := resolve lib self i in
  if decide (0 <= i) then
    match item_addr self i with
    | Return addr =>
        Return (Elem (CData (element_type self)
                            (load m addr (sizeof (element_type self)))))
    | Raise e => Raise e
    end
  else Return (PyInt 0).

(** [__setitem__], lines 414-431. *)
Definition __setitem__ `{LibStinger L} (lib : L) (self : t) (i : pyval)
           (k : cdata) : M mem item :=
  let i := resolve lib self i in
  if decide (0 <= i) then
    do addr <- lift (item_addr self i);
    do raw <- lift (to_raw (element_type self) k);
    modify (store addr raw) >>
    ret (Elem k)
  else ret (PyInt 0).

End StingerDataArray.

(* ===================================================================== *)
(** ** A server for the examples *)
(* ===================================================================== *)

Module Server.

Import Phase.

Record t : Type := mk {
  link_up : bool;
  batches : list send_batch_args;
  phase : PhaseState;
  vertices : Z;
  mapping : list (string * Z) }.

Definition set_phase (p : PhaseState) (srv : t) : t :=
  mk (link_up srv) (batches srv) p (vertices srv) (mapping srv).

(** Modelled from the spec: a request that section 3 allows moves the
    phase and answers [0]; any other is answered [-1] and changes
    nothing. *)
Definition transition (c : request) (srv : t) : Z * t :=
  match next (phase srv) c with
  | Some p => (0, set_phase p srv)
  | None => (-1, srv)
  end.

(** A batch is stored when the link is up (status [0]) and lost when it
    is down (status [-1]). *)
Definition receive (args : send_batch_args) (srv : t) : Z * t :=
  if link_up srv then
    (0, mk true (batches srv ++ [args]) (phase srv) (vertices srv)
           (mapping srv))
  else (-1, srv).

Fixpoint lookup (name : string) (m : list (string * Z)) : Z :=
  match m with
  | [] => -1
  | (n, v) :: m' => if String.eqb n name then v else lookup name m'
  end.

#[global] Instance lib : LibStinger t := {
  stream_connect _ _ srv := (3, srv);
  stream_send_batch := receive;
  stinger_alg_begin_init _ := transition BeginInit;
  stinger_alg_end_init _ := transition EndInit;
  stinger_alg_begin_pre _ := transition BeginPre;
  stinger_alg_end_pre _ := transition EndPre;
  stinger_alg_begin_post _ := transition BeginPost;
  stinger_alg_end_post _ := transition EndPost;
  stinger_alg_max_vertices _ srv := vertices srv;
  stinger_mapping_lookup _ name _ srv := lookup name (mapping srv) }.

Definition start (up : bool) : t := mk up [] Idle 10 [("a", 0); ("b", 1)].

End Server.

(* ===================================================================== *)
(** ** Vocabulary of the statements about a stream *)
(* ===================================================================== *)

Module Batch.
Import StingerStream.

(** The three logical counts of a batch. *)
Definition counts (self : t) : nat * nat * nat :=
  (insertions_count self, deletions_count self, vertex_updates_count self).

Definition is_int (v : pyval) : bool := negb (isinstance_str v).

(** The mode flag the field assignments of a call see. *)
Definition mode_of (strings : bool) (c : call) : bool :=
  match c with
  | AddInsert _ _ _ _ _ (Some b) => b
  | _ => strings
  end.

(** The arguments fit the documented types for the mode in force: integer
    weights, and integer ids unless names are expected. *)
Definition well_typed (strings : bool) (c : call) : bool :=
  match c with
  | AddInsert vfrom vto _ weight ts _ =>
      (mode_of strings c || is_int vfrom && is_int vto)
      && is_int weight && is_int ts
  | AddDelete vfrom vto _ => strings || is_int vfrom && is_int vto
  | AddVertexUpdate vtx _ weight incr_weight =>
      (strings || is_int vtx) && is_int weight && is_int incr_weight
  | SendBatch => true
  end.

Fixpoint all_well_typed (strings : bool) (cs : list call) : bool :=
  match cs with
  | [] => true
  | c :: cs' => well_typed strings c && all_well_typed (mode_of strings c) cs'
  end.

(** The number of add calls of each kind made since the last send, on top
    of [n]. *)
Definition count_call (c : call) (n : nat * nat * nat) : nat * nat * nat :=
  let '(i, d, v) := n in
  match c with
  | AddInsert _ _ _ _ _ _ => (i + 1, d, v)
  | AddDelete _ _ _ => (i, d + 1, v)
  | AddVertexUpdate _ _ _ _ => (i, d, v + 1)
  | SendBatch => (0, 0, 0)
  end%nat.

Definition calls_since_send (cs : list call) (n : nat * nat * nat)
  : nat * nat * nat :=
  foldl (fun n c => count_call c n) n cs.

(** The same, counting only the calls that returned. *)
Fixpoint returned_since_send (cs : list call) (os : list (outcome unit))
         (n : nat * nat * nat) : nat * nat * nat :=
  match cs, os with
  | c :: cs', o :: os' =>
      returned_since_send cs' os'
        (if returned o then count_call c n else n)
  | _, _ => n
  end.

Definition no_send (cs : list call) : bool :=
  forallb (fun c => match c with SendBatch => false | _ => true end) cs.

(** What the constructor establishes and every call keeps: each array has
    as many slots as its capacity says, the capacity is positive and the
    count does not exceed it. *)
Record wf (self : t) : Prop := {
  wf_insertions :
    length (insertions self) = insertions_size self
    /\ (insertions_count self <= insertions_size self)%nat
    /\ (0 < insertions_size self)%nat;
  wf_deletions :
    length (deletions self) = deletions_size self
    /\ (deletions_count self <= deletions_size self)%nat
    /\ (0 < deletions_size self)%nat;
  wf_vertex_updates :
    length (vertex_updates self) = vertex_updates_size self
    /\ (vertex_updates_count self <= vertex_updates_size self)%nat
    /\ (0 < vertex_updates_size self)%nat }.

(** [after] keeps what [before] holds: every record below the counts, and
    every array that was kept referenced. *)
Record keeps (before after : t) : Prop := {
  keeps_insertions :
    (forall j, (j < insertions_count before)%nat ->
               insertions after !! j = insertions before !! j)
    /\ (insertions_count before <= insertions_count after)%nat
    /\ insertions_refs before `prefix_of` insertions_refs after;
  keeps_deletions :
    (forall j, (j < deletions_count before)%nat ->
               deletions after !! j = deletions before !! j)
    /\ (deletions_count before <= deletions_count after)%nat
    /\ deletions_refs before `prefix_of` deletions_refs after;
  keeps_vertex_updates :
    (forall j, (j < vertex_updates_count before)%nat ->
               vertex_updates after !! j = vertex_updates before !! j)
    /\ (vertex_updates_count before <= vertex_updates_count after)%nat
    /\ vertex_updates_refs before `prefix_of` vertex_updates_refs after }.

(** The calls that can change the mode flag: an [add_insert] given an
    [insert_strings]. *)
Definition sets_mode (c : call) : bool :=
  match c with
  | AddInsert _ _ _ _ _ (Some _) => true
  | _ => false
  end.

(** How an add call reads its endpoint arguments under a mode flag, seen
    from how it ends ([o]) and from the slot it wrote ([slot]): as names
    when the flag is set, as ids (a name is then a [TypeError]) when it is
    not.  [rest_ok] says that the other arguments have their documented
    types. *)
Definition edge_reads (strings : bool) (vfrom vto : pyval) (rest_ok : bool)
           (o : outcome unit) (slot : option StingerEdgeUpdate.t) : Prop :=
  if strings then
    rest_ok = true ->
    o = Return tt
    /\ exists rec, slot = Some rec
       /\ Return (StingerEdgeUpdate.source_str rec) = c_char_p vfrom
       /\ Return (StingerEdgeUpdate.destination_str rec) = c_char_p vto
  else
    match vfrom, vto with
    | PInt x, PInt y =>
        rest_ok = true ->
        o = Return tt
        /\ exists rec, slot = Some rec
           /\ StingerEdgeUpdate.source rec = wrap64 x
           /\ StingerEdgeUpdate.destination rec = wrap64 y
           /\ StingerEdgeUpdate.source_str rec = NULL
           /\ StingerEdgeUpdate.destination_str rec = NULL
    | _, _ => o = Raise TypeError
    end.

Definition vertex_reads (strings : bool) (vtx : pyval) (rest_ok : bool)
           (o : outcome unit) (slot : option StingerVertexUpdate.t) : Prop :=
  if strings then
    rest_ok = true ->
    o = Return tt
    /\ exists rec, slot = Some rec
       /\ Return (StingerVertexUpdate.vertex_str rec) = c_char_p vtx
  else
    match vtx with
    | PInt x =>
        rest_ok = true ->
        o = Return tt
        /\ exists rec, slot = Some rec
           /\ StingerVertexUpdate.vertex rec = wrap64 x
           /\ StingerVertexUpdate.vertex_str rec = NULL
    | PStr _ => o = Raise TypeError
    end.

(** A transport failure is surfaced when a send the library reports as
    failed ends differently, for the caller, from a send of an empty batch
    the library reports as done.  [failed] tells which statuses of
    [stream_send_batch] mean failure. *)
Definition surfaces_failure `{LibStinger L} (failed : Z -> bool) : Prop :=
  forall (self self_empty : t) (lib lib_ok : L),
    failed (stream_send_batch (batch_args self) lib).1 = true ->
    counts self_empty = (0, 0, 0)%nat ->
    failed (stream_send_batch (batch_args self_empty) lib_ok).1 = false ->
    (send_batch (self, lib)).2 <> (send_batch (self_empty, lib_ok)).2.

(** *** Example sessions *)

(** Three insertions by name, a send, and one more insertion. *)
Definition three_then_one : list call :=
  [AddInsert (PStr "A") (PStr "B") (PInt 0) (PInt 1) (PInt 0) None;
   AddInsert (PStr "B") (PStr "C") (PInt 0) (PInt 1) (PInt 0) None;
   AddInsert (PStr "C") (PStr "A") (PInt 0) (PInt 1) (PInt 0) None;
   SendBatch;
   AddInsert (PStr "A") (PStr "C") (PInt 0) (PInt 1) (PInt 0) None].

(** An insertion by ids with a named edge type, a send, then an insertion
    by names with a numbered edge type: the second lands in the slot the
    first one used. *)
Definition ids_then_names : list call :=
  [AddInsert (PInt 1) (PInt 2) (PStr "t") (PInt 5) (PInt 9) (Some false);
   SendBatch;
   AddInsert (PStr "a") (PStr "b") (PInt 0) (PInt 1) (PInt 0) (Some true)].

(** The stream a client of the example server starts with.  (The
    constructor does not raise: the second branch is never taken.) *)
Definition started (strings : bool) : t * Server.t :=
  match __init__ "localhost" 10102 strings false (Server.start true) with
  | (srv, Return self) => (self, srv)
  | (srv, Raise _) =>
      (StingerStream.mk 0 0 [] [] 0 0 [] [] 0 0 [] [] 0 strings false, srv)
  end.

(** The same stream after 5000 insertions by ids: its insertion array is
    full. *)
Definition filled : t * Server.t :=
  (run (replicate 5000
          (AddInsert (PInt 1) (PInt 2) (PInt 0) (PInt 1) (PInt 0) (Some false)))
       (started true)).1.

End Batch.

(* ===================================================================== *)
(** ** Vocabulary of the statements about a data view *)
(* ===================================================================== *)

Module Layout.
Import StingerDataArray.

(** The sum of the byte widths of the first [k] tags. *)
Fixpoint widths_before (tags : string) (k : nat) {struct k} : Z :=
  match k, tags with
  | S k', String c tags' => width c + widths_before tags' k'
  | _, _ => 0
  end.

(** Element [i] of a view lies in the address space of the process: the
    view is not a null pointer, and the element, [i] element sizes after
    the view's address, ends at [2^64] at the latest.  (Such an index
    fits a [ssize_t], as every element type has a size of at least 1.) *)
Definition addressable (self : t) (i : Z) : Prop :=
  0 < data self
  /\ 0 <= i < 2 ^ 63
  /\ data self + (i + 1) * sizeof (element_type self) <= 2 ^ 64.

(** A view of the example server's data: [nv] is 10 there. *)
Definition view_of (data_desc field_name : string) : outcome t :=
  (__init__ (Server.start true) (IntPtr 4096) data_desc field_name
            (Stinger.mk 7) []).2.

(** The two fields of a blob described by ["ii x y"], at address 4096. *)
Definition view_x : t := mk "x" "i" 10 (Stinger.mk 7) 4096.
Definition view_y : t := mk "y" "i" 10 (Stinger.mk 7) 4136.

(** The C [int] 7 and a memory of zero bytes. *)
Definition seven : cdata :=
  CData C_int32 [Byte.x07; Byte.x00; Byte.x00; Byte.x00].
Definition zeroed : mem := fun _ => Byte.x00.

(** The C [double] 2.5 (0x4004000000000000, little-endian) and a view of
    the field of ["d score"]. *)
Definition two_and_a_half : cdata :=
  CData C_double [Byte.x00; Byte.x00; Byte.x00; Byte.x00;
                  Byte.x00; Byte.x00; Byte.x04; Byte.x40].
Definition view_score : t := mk "score" "d" 10 (Stinger.mk 7) 4096.

End Layout.

(* ===================================================================== *)
(** ** Vocabulary: the records of a first batch *)
(* ===================================================================== *)

Module Records.
Import StingerStream Batch.

(** What the field assignments of a call leave in a slot that was zeroed:
    the record the call appends to its sequence. *)
Definition inserted (strings : bool) (c : call) : list StingerEdgeUpdate.t :=
  match c with
  | AddInsert vfrom vto etype weight ts _ =>
      option_list
        (insert_fields (mode_of strings c) vfrom vto etype weight ts
                       (Some StingerEdgeUpdate.zero)).1
  | _ => []
  end.

Definition deleted (strings : bool) (c : call) : list StingerEdgeUpdate.t :=
  match c with
  | AddDelete vfrom vto etype =>
      option_list
        (delete_fields strings vfrom vto etype (Some StingerEdgeUpdate.zero)).1
  | _ => []
  end.

Definition updated (strings : bool) (c : call)
  : list StingerVertexUpdate.t :=
  match c with
  | AddVertexUpdate vtx vtype weight incr_weight =>
      option_list
        (vertex_fields strings vtx vtype weight incr_weight
                       (Some StingerVertexUpdate.zero)).1
  | _ => []
  end.

(** The records of a sequence of calls, in call order, each read under the
    mode flag in force when it is made. *)
Fixpoint records_of {R} (one : bool -> call -> list R) (strings : bool)
         (cs : list call) : list R :=
  match cs with
  | [] => []
  | c :: cs' => one strings c ++ records_of one (mode_of strings c) cs'
  end.

(** An array that holds [recs] in its first slots and zeroed slots after
    them, with the count at the number of records. *)
Definition holds {R} (zero : R) (size count : nat) (arr recs : list R)
  : Prop :=
  arr = recs ++ replicate (size - length recs) zero
  /\ count = length recs
  /\ (length recs <= size)%nat
  /\ (0 < size)%nat.

Record first_batch (self : t) (ins dels : list StingerEdgeUpdate.t)
       (vus : list StingerVertexUpdate.t) : Prop := {
  first_insertions :
    holds StingerEdgeUpdate.zero (insertions_size self)
          (insertions_count self) (insertions self) ins;
  first_deletions :
    holds StingerEdgeUpdate.zero (deletions_size self)
          (deletions_count self) (deletions self) dels;
  first_vertex_updates :
    holds StingerVertexUpdate.zero (vertex_updates_size self)
          (vertex_updates_count self) (vertex_updates self) vus }.

(** An add call with a name where an id is expected: it raises. *)
Definition name_for_id : call :=
  AddInsert (PStr "a") (PStr "b") (PInt 0) (PInt 1) (PInt 0) (Some false).

(** Two insertions, a deletion and a vertex update, by ids then by
    names. *)
Definition mixed_batch : list call :=
  [AddInsert (PInt 1) (PInt 2) (PInt 0) (PInt 5) (PInt 9) (Some false);
   AddDelete (PInt 3) (PInt 4) (PStr "t");
   AddInsert (PStr "a") (PStr "b") (PInt 7) (PInt 1) (PInt 0) (Some true);
   AddVertexUpdate (PStr "a") (PInt 2) (PInt 40) (PInt 3)].

End Records.

(* ===================================================================== *)
(** ** The monitor side: StingerAlgState *)
(* ===================================================================== *)

(** The two state queries [get_data_array] goes through.  Their [restype]
    is set to [c_char_p] and [c_void_p]: ctypes hands back [None] for a
    null pointer, the string or the address otherwise. *)
Class LibMonitor (L : Type) : Type := {
  stinger_alg_state_get_data_description : option Z -> L -> option string;
  stinger_alg_state_get_data_ptr : option Z -> L -> option Z }.

Module StingerAlgState.

(** [alg] is the [c_void_p] the monitor got for the algorithm. *)
Record t : Type := mk { alg : option Z; s : Stinger.t }.

(** [get_data_description], lines 474-484: [str] of what the library
    returned, so the text ["None"] when that is [None]. *)
Definition get_data_description `{LibMonitor L} (self : t) (lib : L)
  : string :=
  match stinger_alg_state_get_data_description (alg self) lib with
  | Some d => d
  | None => "None"
  end.

(** [get_data_ptr], lines 486-494. *)
Definition get_data_ptr `{LibMonitor L} (self : t) (lib : L)
  : StingerDataArray.pointer :=
  StingerDataArray.VoidPtr (stinger_alg_state_get_data_ptr (alg self) lib).

(** [get_data_array], lines 496-504. *)
Definition get_data_array `{LibStinger L} `{LibMonitor L} (self : t)
           (name : string) (lib : L)
  : M (list StingerDataArray.event) StingerDataArray.t :=
  StingerDataArray.__init__ lib (get_data_ptr self lib)
                            (get_data_description self lib) name (s self).

End StingerAlgState.

(* ===================================================================== *)
(** ** Removing edges: Stinger.remove_edge (stinger_core.py) *)
(* ===================================================================== *)

(** The entry points of [libstinger_core] behind [create_etype],
    [remove_edge] and [remove_edge_pair].  [stinger_etype_names_create_type]
    answers through an out parameter: [Some v] when it writes [v] there. *)
Class LibStingerCore (L : Type) : Type := {
  stinger_etype_names_create_type : Z -> string -> L -> option Z * L;
  stinger_remove_edge : Z -> Z -> Z -> Z -> L -> Z * L;
  stinger_remove_edge_pair : Z -> Z -> Z -> Z -> L -> Z * L }.

Module StingerEdges.

(** [create_etype], lines 126-130: the out parameter starts at [0]. *)
Definition create_etype `{LibStingerCore L} (self : Stinger.t)
           (name : string) (lib : L) : Z * L :=
  let '(out, lib') :=
    stinger_etype_names_create_type (Stinger.s self) name lib in
  (wrap64 (default 0 out), lib').

(** The first lines of both removals: names are looked up, an edge type
    given by name is created. *)
Definition endpoint `{LibStinger L} (self : Stinger.t) (v : pyval) (lib : L)
  : Z :=
  match v with
  | PStr name => Stinger.get_mapping lib self name
  | PInt z => z
  end.

Definition edge_type_id `{LibStingerCore L} (self : Stinger.t)
           (etype : pyval) (lib : L) : Z * L :=
  match etype with
  | PStr name => create_etype self name lib
  | PInt z => (z, lib)
  end.

(** [remove_edge], lines 183-192. *)
Definition remove_edge `{LibStinger L} `{LibStingerCore L} (self : Stinger.t)
           (vfrom vto etype : pyval) : M L unit :=
  fun lib =>
    let vfrom := endpoint self vfrom lib in
    let vto := endpoint self vto lib in
    let '(etype, lib) := edge_type_id self etype lib in
    if decide (0 < vfrom /\ 0 < vto) then
      ((stinger_remove_edge (Stinger.s self) (wrap64 etype) (wrap64 vfrom)
                            (wrap64 vto) lib).2,
       Return tt)
    else (lib, Return tt).

(** [remove_edge_pair], lines 194-203. *)
Definition remove_edge_pair `{LibStinger L} `{LibStingerCore L}
           (self : Stinger.t) (vfrom vto etype : pyval) : M L unit :=
  fun lib =>
    let vfrom := endpoint self vfrom lib in
    let vto := endpoint self vto lib in
    let '(etype, lib) := edge_type_id self etype lib in
    if decide (0 < vfrom /\ 0 < vto) then
      ((stinger_remove_edge_pair (Stinger.s self) (wrap64 etype)
                                 (wrap64 vfrom) (wrap64 vto) lib).2,
       Return tt)
    else (lib, Return tt).

End StingerEdges.

(* ===================================================================== *)
(** ** A graph engine for the examples *)
(* ===================================================================== *)

Module Graph.

(** Vertex names with their ids, edge type names (a type's id is its
    position), and the edges as (type, from, to). *)
Record t : Type := mk {
  names : list (string * Z);
  types : list string;
  edges : list (Z * Z * Z);
  description : option string;
  blob : option Z }.

Definition same_edge (e e' : Z * Z * Z) : bool :=
  (e.1.1 =? e'.1.1) && (e.1.2 =? e'.1.2) && (e.2 =? e'.2).

Definition remove (e : Z * Z * Z) (g : t) : Z * t :=
  (0, mk (names g) (types g)
         (filter (fun e' => same_edge e e' = false) (edges g))
         (description g) (blob g)).

Definition create_type (name : string) (g : t) : option Z * t :=
  (Some (Z.of_nat (length (types g))),
   mk (names g) (types g ++ [name]) (edges g) (description g) (blob g)).

#[export] Instance net : LibStinger t := {
  stream_connect _ _ g := (3, g);
  stream_send_batch _ g := (0, g);
  stinger_alg_begin_init _ g := (0, g);
  stinger_alg_end_init _ g := (0, g);
  stinger_alg_begin_pre _ g := (0, g);
  stinger_alg_end_pre _ g := (0, g);
  stinger_alg_begin_post _ g := (0, g);
  stinger_alg_end_post _ g := (0, g);
  stinger_alg_max_vertices _ g := 10;
  stinger_mapping_lookup _ name _ g := Server.lookup name (names g) }.

#[export] Instance core : LibStingerCore t := {
  stinger_etype_names_create_type _ name g := create_type name g;
  stinger_remove_edge _ etype vfrom vto g := remove (etype, vfrom, vto) g;
  stinger_remove_edge_pair _ etype vfrom vto g :=
    remove (etype, vfrom, vto) (remove (etype, vto, vfrom) g).2 }.

#[export] Instance monitor : LibMonitor t := {
  stinger_alg_state_get_data_description _ g := description g;
  stinger_alg_state_get_data_ptr _ g := blob g }.

(** Vertices [a] (id 0), [b] (id 1) and [c] (id 2), one edge type, and the
    edges a -> b and b -> c; no algorithm data. *)
Definition small : t :=
  mk [("a", 0); ("b", 1); ("c", 2)] ["t0"] [(0, 0, 1); (0, 1, 2)] None None.

End Graph.

(* ===================================================================== *)
(** ** Facts about slots and growth *)
(* ===================================================================== *)

Section SlotFacts.
Context {R : Type}.
Implicit Types (arr : list R) (prog : M (option R) unit).

Lemma at_index_length prog idx arr :
  length (at_index prog idx arr).1 = length arr.
Proof.
  unfold at_index. destruct (prog (arr !! idx)) as [[r'|] o]; simpl; [|done].
  by rewrite length_insert.
Qed.

Lemma at_index_other prog idx arr j :
  j ≠ idx → (at_index prog idx arr).1 !! j = arr !! j.
Proof.
  intros Hj. unfold at_index.
  destruct (prog (arr !! idx)) as [[r'|] o]; simpl; [|done].
  by rewrite list_lookup_insert_ne.
Qed.

Lemma at_index_some prog idx arr r r' o :
  arr !! idx = Some r → prog (Some r) = (Some r', o) →
  at_index prog idx arr = (<[idx := r']> arr, o).
Proof. intros Hr Hp. unfold at_index. by rewrite Hr, Hp. Qed.

Lemma grow_full (zero : R) size count arr refs :
  (size ≤ count)%nat → length arr = size →
  grow zero size count arr refs
  = ((size * 2)%nat, arr ++ replicate size zero, refs ++ [arr]).
Proof.
  intros Hfull Hlen. unfold grow, memmove. rewrite decide_True by done.
  rewrite Nat.div_mul by done. rewrite (take_ge arr size) by lia.
  rewrite drop_replicate.
  by replace (size * 2 - size)%nat with size by lia.
Qed.

Lemma grow_room (zero : R) size count arr refs :
  (count < size)%nat → grow zero size count arr refs = (size, arr, refs).
Proof. intros Hroom. unfold grow. rewrite decide_False; [done | lia]. Qed.

(** One add on one buffer: growth, then the writes to the slot at the
    count, then the count moves on if nothing was raised. *)
Lemma buffer_step (zero : R) prog size count arr refs size' arr' refs' :
  length arr = size → (count ≤ size)%nat → (0 < size)%nat →
  grow zero size count arr refs = (size', arr', refs') →
  let res := at_index prog count arr' in
  let count' := if returned res.2 then (count + 1)%nat else count in
  (length res.1 = size' ∧ (count' ≤ size')%nat ∧ (0 < size')%nat)
  ∧ (∀ j, (j < count)%nat → res.1 !! j = arr !! j)
  ∧ (if decide (size ≤ count)%nat
     then size' = (size * 2)%nat ∧ refs' = refs ++ [arr]
     else size' = size ∧ refs' = refs)
  ∧ is_Some (arr' !! count).
Proof.
  intros Hlen Hcount Hpos Hgrow res count'.
  assert (length arr' = size' ∧ (count < size')%nat
          ∧ ∀ j, (j < count)%nat → arr' !! j = arr !! j) as (Hlen' & Hlt & Hpre).
  { destruct (decide (size ≤ count)%nat) as [Hfull|Hroom].
    - rewrite grow_full in Hgrow by done. simplify_eq.
      rewrite length_app, length_replicate. split_and!; [lia | lia |].
      intros j Hj. apply lookup_app_l. lia.
    - rewrite grow_room in Hgrow by lia. simplify_eq. split_and!; [done | lia | done]. }
  split_and!.
  - subst res. by rewrite at_index_length.
  - subst count'. destruct (returned res.2); lia.
  - lia.
  - intros j Hj. subst res. rewrite at_index_other by lia. by apply Hpre.
  - case_decide.
    + rewrite grow_full in Hgrow by done. by simplify_eq.
    + rewrite grow_room in Hgrow by lia. by simplify_eq.
  - apply lookup_lt_is_Some. lia.
Qed.
End SlotFacts.

(* ===================================================================== *)
(** ** One call on a stream *)
(* ===================================================================== *)

Section StreamFacts.
Import StingerStream Batch.

Ltac unfold_method :=
  unfold add_insert, add_delete, add_vertex_update, bind, modify, gets,
    on_insertion, on_deletion, on_vertex_update,
    grow_insertions, grow_deletions, grow_vertex_updates;
  lazy beta iota zeta.

Lemma grown_refs_prefix {R} (size count size' : nat) (arr : list R)
      refs refs' :
  (if decide (size ≤ count)%nat
   then size' = (size * 2)%nat ∧ refs' = refs ++ [arr]
   else size' = size ∧ refs' = refs) →
  refs `prefix_of` refs'.
Proof. case_decide; intros [_ ->]; [by apply prefix_app_r | done]. Qed.

(** Steps through one add method on a well-formed stream: the array is
    grown, the field assignments run on the slot at the count, and the two
    ways the call can end are told apart. *)
Ltac step_method Hlen Hcount Hpos :=
  match goal with
  | |- context [grow ?z ?size ?count ?arr ?refs] =>
      let Hgrow := fresh "Hgrow" in
      destruct (grow z size count arr refs) as [[size' arr'] refs'] eqn:Hgrow;
      simpl;
      match goal with
      | |- context [at_index ?p count arr'] =>
          pose proof (buffer_step z p _ _ _ _ _ _ _ Hlen Hcount Hpos Hgrow)
            as (Hwf' & Hpre & Hrefs & Hslot);
          apply grown_refs_prefix in Hrefs;
          destruct (at_index p count arr') as [arr'' [[]|e]]; simpl in *
      end
  end.

Ltac close_step :=
  split_and!; try done;
  try (split; simpl; split_and!; (done || lia));
  try (unfold counts; simpl; repeat f_equal; lia).

Lemma add_insert_step vfrom vto etype weight ts ins self :
  wf self →
  let self' := (add_insert vfrom vto etype weight ts ins self).1 in
  let o := (add_insert vfrom vto etype weight ts ins self).2 in
  wf self' ∧ keeps self self'
  ∧ counts self'
    = ((insertions_count self + (if returned o then 1 else 0))%nat,
       deletions_count self, vertex_updates_count self)
  ∧ only_strings self' = default (only_strings self) ins.
Proof.
  intros [(Hlen & Hcount & Hpos) Hd Hv]. unfold_method.
  destruct self; simpl in *.
  step_method Hlen Hcount Hpos; close_step; by destruct ins.
Qed.

Lemma add_delete_step vfrom vto etype self :
  wf self →
  let self' := (add_delete vfrom vto etype self).1 in
  let o := (add_delete vfrom vto etype self).2 in
  wf self' ∧ keeps self self'
  ∧ counts self'
    = (insertions_count self,
       (deletions_count self + (if returned o then 1 else 0))%nat,
       vertex_updates_count self)
  ∧ only_strings self' = only_strings self.
Proof.
  intros [Hi (Hlen & Hcount & Hpos) Hv]. unfold_method.
  destruct self; simpl in *.
  step_method Hlen Hcount Hpos; close_step.
Qed.

Lemma add_vertex_update_step vtx vtype weight incr_weight self :
  wf self →
  let self' := (add_vertex_update vtx vtype weight incr_weight self).1 in
  let o := (add_vertex_update vtx vtype weight incr_weight self).2 in
  wf self' ∧ keeps self self'
  ∧ counts self'
    = (insertions_count self, deletions_count self,
       (vertex_updates_count self + (if returned o then 1 else 0))%nat)
  ∧ only_strings self' = only_strings self.
Proof.
  intros [Hi Hd (Hlen & Hcount & Hpos)]. unfold_method.
  destruct self; simpl in *.
  step_method Hlen Hcount Hpos; close_step.
Qed.

Context `{LibStinger L}.

Lemma send_batch_step self (lib : L) :
  let w := (send_batch (self, lib)).1 in
  (send_batch (self, lib)).2 = Return tt
  ∧ w.2 = (stream_send_batch (batch_args self) lib).2
  ∧ counts w.1 = (0, 0, 0)%nat
  ∧ (insertions_refs w.1 = [] ∧ deletions_refs w.1 = []
     ∧ vertex_updates_refs w.1 = [])
  ∧ only_strings w.1 = only_strings self
  ∧ (wf self → wf w.1).
Proof.
  unfold send_batch.
  destruct (stream_send_batch (batch_args self) lib) as [status lib'].
  destruct self; simpl. split_and!; try done.
  intros [(? & ? & ?) (? & ? & ?) (? & ? & ?)].
  split; simpl in *; split_and!; (done || lia).
Qed.

(** Every call keeps the invariant, moves the counts as its kind says when
    it returns and leaves them alone when it raises, and sets the mode flag
    only through [insert_strings]. *)
Lemma exec_step c self (lib : L) :
  wf self →
  let w := (exec c (self, lib)).1 in
  let o := (exec c (self, lib)).2 in
  wf w.1
  ∧ counts w.1 = (if returned o then count_call c (counts self)
                  else counts self)
  ∧ only_strings w.1 = mode_of (only_strings self) c
  ∧ (c ≠ SendBatch → keeps self w.1).
Proof.
  intros Hwf. destruct c as [vfrom vto etype weight ts ins|vfrom vto etype
                             |vtx vtype weight incr|]; cbn [exec].
  - pose proof (add_insert_step vfrom vto etype weight ts ins self Hwf)
      as (? & ? & Hc & Hm).
    unfold local.
    destruct (add_insert vfrom vto etype weight ts ins self) as [self' o].
    simpl in *. split_and!; [done | | rewrite Hm; by destruct ins | done].
    rewrite Hc. unfold counts. destruct (returned o); simpl; repeat f_equal; lia.
  - pose proof (add_delete_step vfrom vto etype self Hwf) as (? & ? & Hc & Hm).
    unfold local. destruct (add_delete vfrom vto etype self) as [self' o].
    simpl in *. split_and!; [done | | done | done].
    rewrite Hc. unfold counts. destruct (returned o); simpl; repeat f_equal; lia.
  - pose proof (add_vertex_update_step vtx vtype weight incr self Hwf)
      as (? & ? & Hc & Hm).
    unfold local.
    destruct (add_vertex_update vtx vtype weight incr self) as [self' o].
    simpl in *. split_and!; [done | | done | done].
    rewrite Hc. unfold counts. destruct (returned o); simpl; repeat f_equal; lia.
  - pose proof (send_batch_step self lib) as (Ho & _ & Hc & _ & Hm & Hw).
    rewrite Ho, Hc. simpl. split_and!; [by apply Hw | | done | done].
    by destruct (counts self) as [[? ?] ?].
Qed.

(** The field assignments go through on an existing slot when the
    arguments have the documented types. *)
Lemma insert_fields_returns strings vfrom vto etype weight ts r :
  (strings || is_int vfrom && is_int vto) && is_int weight && is_int ts
  = true →
  ∃ r', insert_fields strings vfrom vto etype weight ts (Some r)
        = (Some r', Return tt).
Proof.
  destruct strings, vfrom, vto, etype, weight, ts; simpl;
    try discriminate; intros _; eexists; reflexivity.
Qed.

Lemma delete_fields_returns strings vfrom vto etype r :
  strings || is_int vfrom && is_int vto = true →
  ∃ r', delete_fields strings vfrom vto etype (Some r) = (Some r', Return tt).
Proof.
  destruct strings, vfrom, vto, etype; simpl;
    try discriminate; intros _; eexists; reflexivity.
Qed.

Lemma vertex_fields_returns strings vtx vtype weight incr_weight r :
  (strings || is_int vtx) && is_int weight && is_int incr_weight = true →
  ∃ r', vertex_fields strings vtx vtype weight incr_weight (Some r)
        = (Some r', Return tt).
Proof.
  destruct strings, vtx, vtype, weight, incr_weight; simpl;
    try discriminate; intros _; eexists; reflexivity.
Qed.

Ltac returns_with Hlen Hcount Hpos lemma Htyped :=
  match goal with
  | |- context [grow ?z ?size ?count ?arr ?refs] =>
      let Hgrow := fresh "Hgrow" in
      destruct (grow z size count arr refs) as [[size' arr'] refs'] eqn:Hgrow;
      simpl;
      match goal with
      | |- context [at_index ?p count arr'] =>
          pose proof (buffer_step z p _ _ _ _ _ _ _ Hlen Hcount Hpos Hgrow)
            as (_ & _ & _ & [r Hr]);
          let r' := fresh "r'" in
          let Hr' := fresh "Hr'" in
          destruct (lemma r Htyped) as [r' Hr'];
          by rewrite (at_index_some _ _ _ _ _ _ Hr Hr')
      end
  end.

Lemma exec_returns c self (lib : L) :
  wf self → well_typed (only_strings self) c = true →
  (exec c (self, lib)).2 = Return tt.
Proof.
  intros [(Hil & Hic & Hip) (Hdl & Hdc & Hdp) (Hvl & Hvc & Hvp)] Htyped.
  destruct c as [vfrom vto etype weight ts ins|vfrom vto etype
                |vtx vtype weight incr|]; cbn [exec].
  - unfold local. unfold_method. destruct self; simpl in *.
    returns_with Hil Hic Hip
      (insert_fields_returns
         (match ins with Some b => b | None => only_strings0 end)
         vfrom vto etype weight ts) Htyped.
  - unfold local. unfold_method. destruct self; simpl in *.
    returns_with Hdl Hdc Hdp
      (delete_fields_returns only_strings0 vfrom vto etype) Htyped.
  - unfold local. unfold_method. destruct self; simpl in *.
    returns_with Hvl Hvc Hvp
      (vertex_fields_returns only_strings0 vtx vtype weight incr) Htyped.
  - apply send_batch_step.
Qed.

Lemma keeps_refl self : keeps self self.
Proof. by split. Qed.

Lemma keeps_trans a b c : keeps a b → keeps b c → keeps a c.
Proof.
  intros [(Hi1 & Hi2 & Hi3) (Hd1 & Hd2 & Hd3) (Hv1 & Hv2 & Hv3)]
         [(Hi4 & Hi5 & Hi6) (Hd4 & Hd5 & Hd6) (Hv4 & Hv5 & Hv6)].
  split; (split_and!; [| lia | by etrans]);
    intros j Hj; [rewrite Hi4, Hi1 | rewrite Hd4, Hd1 | rewrite Hv4, Hv1];
    (done || lia).
Qed.

Lemma run_cons c cs (w : t * L) :
  run (c :: cs) w
  = ((run cs (exec c w).1).1, (exec c w).2 :: (run cs (exec c w).1).2).
Proof.
  simpl. destruct (exec c w) as [w' o]. simpl. by destruct (run cs w').
Qed.

(** What a whole sequence of calls does to a well-formed stream. *)
Lemma run_facts cs : ∀ self (lib : L),
  wf self →
  let final := run cs (self, lib) in
  wf final.1.1
  ∧ counts final.1.1 = returned_since_send cs final.2 (counts self)
  ∧ only_strings final.1.1 = foldl mode_of (only_strings self) cs
  ∧ (no_send cs = true → keeps self final.1.1)
  ∧ (all_well_typed (only_strings self) cs = true →
     final.2 = replicate (length cs) (Return tt)
     ∧ counts final.1.1 = calls_since_send cs (counts self)).
Proof.
  induction cs as [|c cs IH]; intros self lib Hwf.
  { simpl. split_and!; (done || (intros _; apply keeps_refl)). }
  cbv zeta. rewrite run_cons.
  pose proof (exec_step c self lib Hwf) as (Hwf' & Hc & Hm & Hk).
  pose proof (exec_returns c self lib Hwf) as Hret.
  destruct (exec c (self, lib)) as [[self' lib'] o]. simpl in Hwf', Hc, Hm, Hk, Hret.
  specialize (IH self' lib' Hwf') as (IHwf & IHc & IHm & IHk & IHt).
  cbn [fst snd returned_since_send foldl no_send forallb all_well_typed length
       replicate].
  split_and!.
  - done.
  - by rewrite IHc, Hc.
  - by rewrite IHm, Hm.
  - intros [Hns Hno]%andb_prop. apply keeps_trans with self'.
    + apply Hk. by destruct c.
    + by apply IHk.
  - intros [Hty Hall]%andb_prop. rewrite <- Hm in Hall.
    destruct (IHt Hall) as [-> ->]. rewrite (Hret Hty) in Hc |- *.
    by rewrite Hc.
Qed.

Lemma init_facts host port strings undirected (lib lib0 : L) self0 :
  __init__ host port strings undirected lib = (lib0, Return self0) →
  wf self0 ∧ counts self0 = (0, 0, 0)%nat ∧ only_strings self0 = strings.
Proof.
  unfold __init__. destruct (stream_connect host (c_int port) lib).
  intros Heq.
  apply (f_equal (fun r => match r.2 with Return a => a | Raise _ => self0 end))
    in Heq.
  cbv beta iota delta [snd] in Heq. subst self0.
  split_and!; [| done | done].
  split;
    cbn [insertions deletions vertex_updates insertions_size deletions_size
         vertex_updates_size insertions_count deletions_count
         vertex_updates_count];
    rewrite length_replicate; split_and!; (done || lia).
Qed.

(* ===================================================================== *)
(** ** Counts (C1) *)
(* ===================================================================== *)

(** C1.  On a stream made by the constructor, after any sequence of
    [add_insert], [add_delete], [add_vertex_update] and [send_batch] calls,
    each of the three counts is the number of add calls of its kind that
    returned since construction or the last send.  When the arguments have
    the documented types every call returns, so that is the number of add
    calls made.  [send_batch] returns on every stream and leaves the three
    counts at zero; as the sequence is arbitrary, the law holds on through
    any number of add and send cycles. *)
Theorem stream_counts_follow_calls host port strings undirected
        (lib lib0 : L) self0 cs :
  __init__ host port strings undirected lib = (lib0, Return self0) →
  let final := run cs (self0, lib0) in
  counts final.1.1 = returned_since_send cs final.2 (0, 0, 0)%nat
  ∧ (all_well_typed strings cs = true →
     final.2 = replicate (length cs) (Return tt)
     ∧ counts final.1.1 = calls_since_send cs (0, 0, 0)%nat)
  ∧ (∀ self (lib' : L),
       (send_batch (self, lib')).2 = Return tt
       ∧ counts (send_batch (self, lib')).1.1 = (0, 0, 0)%nat).
Proof.
  intros (Hwf & Hc & Hm)%init_facts final.
  destruct (run_facts cs self0 lib0 Hwf) as (_ & Hcounts & _ & _ & Htyped).
  rewrite Hc, Hm in *. split_and!; [done | done |].
  intros self lib'. pose proof (send_batch_step self lib') as (? & _ & ? & _).
  done.
Qed.

(* ===================================================================== *)
(** ** Growth (C2) *)
(* ===================================================================== *)

Ltac grows_with self Hlen Hcount Hpos Hfull zero refs :=
  let Hgrow := fresh "Hgrow" in
  let Hstep := fresh "Hstep" in
  pose proof (grow_full zero _ _ _ refs Hfull Hlen) as Hgrow;
  pose proof (fun p => buffer_step zero p _ _ _ _ _ _ _ Hlen Hcount Hpos Hgrow)
    as Hstep;
  revert Hgrow Hstep; unfold_method; destruct self; simpl;
  intros -> Hstep; simpl;
  match goal with
  | |- context [at_index ?p ?i ?a] =>
      destruct (Hstep p) as ((Hl & _) & Hpre & _);
      destruct (at_index p i a) as [arr'' [[]|e]]
  end;
  simpl in *; done.

Lemma add_insert_grows vfrom vto etype weight ts ins self :
  wf self → (insertions_size self ≤ insertions_count self)%nat →
  let self' := (add_insert vfrom vto etype weight ts ins self).1 in
  insertions_size self' = (insertions_size self * 2)%nat
  ∧ length (insertions self') = (insertions_size self * 2)%nat
  ∧ insertions_refs self' = insertions_refs self ++ [insertions self]
  ∧ (∀ j, (j < insertions_count self)%nat →
          insertions self' !! j = insertions self !! j).
Proof.
  intros [(Hlen & Hcount & Hpos) _ _] Hfull.
  grows_with self Hlen Hcount Hpos Hfull E.zero (insertions_refs self).
Qed.

Lemma add_delete_grows vfrom vto etype self :
  wf self → (deletions_size self ≤ deletions_count self)%nat →
  let self' := (add_delete vfrom vto etype self).1 in
  deletions_size self' = (deletions_size self * 2)%nat
  ∧ length (deletions self') = (deletions_size self * 2)%nat
  ∧ deletions_refs self' = deletions_refs self ++ [deletions self]
  ∧ (∀ j, (j < deletions_count self)%nat →
          deletions self' !! j = deletions self !! j).
Proof.
  intros [_ (Hlen & Hcount & Hpos) _] Hfull.
  grows_with self Hlen Hcount Hpos Hfull E.zero (deletions_refs self).
Qed.

Lemma add_vertex_update_grows vtx vtype weight incr_weight self :
  wf self → (vertex_updates_size self ≤ vertex_updates_count self)%nat →
  let self' := (add_vertex_update vtx vtype weight incr_weight self).1 in
  vertex_updates_size self' = (vertex_updates_size self * 2)%nat
  ∧ length (vertex_updates self') = (vertex_updates_size self * 2)%nat
  ∧ vertex_updates_refs self'
    = vertex_updates_refs self ++ [vertex_updates self]
  ∧ (∀ j, (j < vertex_updates_count self)%nat →
          vertex_updates self' !! j = vertex_updates self !! j).
Proof.
  intros [_ _ (Hlen & Hcount & Hpos)] Hfull.
  grows_with self Hlen Hcount Hpos Hfull V.zero (vertex_updates_refs self).
Qed.

Lemma kept_reference {R} (old : list R) refs refs' :
  (refs ++ [old]) `prefix_of` refs' → old ∈ refs'.
Proof.
  intros [k ->]. rewrite !elem_of_app, list_elem_of_singleton. auto.
Qed.

(** C2.  On a well-formed stream, for each of the three sequences: an add
    call made when the count has reached the capacity doubles the capacity,
    allocates an array of that many slots whose first records are the old
    ones unchanged (record [j] for every [j] below the old count), and
    appends the old array to the sequence's reference list.  Through any
    further calls short of a send, every record below the counts stays as
    it was written and the old array stays referenced; [send_batch] then
    empties the three reference lists. *)
Theorem growth_preserves_records (lib : L) self c cs :
  wf self → no_send cs = true →
  let grown := (exec c (self, lib)).1 in
  let later := (run cs grown).1 in
  match c with
  | AddInsert _ _ _ _ _ _ =>
      (insertions_size self ≤ insertions_count self)%nat →
      insertions_size grown.1 = (insertions_size self * 2)%nat
      ∧ length (insertions grown.1) = (insertions_size self * 2)%nat
      ∧ insertions_refs grown.1 = insertions_refs self ++ [insertions self]
      ∧ insertions self ∈ insertions_refs later.1
  | AddDelete _ _ _ =>
      (deletions_size self ≤ deletions_count self)%nat →
      deletions_size grown.1 = (deletions_size self * 2)%nat
      ∧ length (deletions grown.1) = (deletions_size self * 2)%nat
      ∧ deletions_refs grown.1 = deletions_refs self ++ [deletions self]
      ∧ deletions self ∈ deletions_refs later.1
  | AddVertexUpdate _ _ _ _ =>
      (vertex_updates_size self ≤ vertex_updates_count self)%nat →
      vertex_updates_size grown.1 = (vertex_updates_size self * 2)%nat
      ∧ length (vertex_updates grown.1) = (vertex_updates_size self * 2)%nat
      ∧ vertex_updates_refs grown.1
        = vertex_updates_refs self ++ [vertex_updates self]
      ∧ vertex_updates self ∈ vertex_updates_refs later.1
  | SendBatch => True
  end
  ∧ (c ≠ SendBatch → keeps self grown.1 ∧ keeps self later.1)
  ∧ (let sent := (send_batch later).1.1 in
     insertions_refs sent = [] ∧ deletions_refs sent = []
     ∧ vertex_updates_refs sent = []).
Proof.
  intros Hwf Hns grown later.
  pose proof (exec_step c self lib Hwf) as (Hwf' & _ & _ & Hk).
  fold grown in Hwf', Hk.
  assert (keeps grown.1 later.1) as Hk'.
  { subst later. destruct grown as [self' lib'].
    by apply (run_facts cs self' lib' Hwf'). }
  split_and!.
  - destruct c as [vfrom vto etype weight ts ins|vfrom vto etype
                  |vtx vtype weight incr|]; [| | | done]; intros Hfull.
    + destruct (add_insert_grows vfrom vto etype weight ts ins self Hwf Hfull)
        as (Hs & Hl & Hr & _).
      assert (grown.1 = (add_insert vfrom vto etype weight ts ins self).1)
        as Heq.
      { subst grown. cbn [exec]. unfold local. by destruct (add_insert _ _ _ _ _ _ _). }
      rewrite Heq. split_and!; [done .. |].
      destruct Hk' as [(_ & _ & Hp) _ _]. rewrite Heq, Hr in Hp.
      by apply kept_reference in Hp.
    + destruct (add_delete_grows vfrom vto etype self Hwf Hfull)
        as (Hs & Hl & Hr & _).
      assert (grown.1 = (add_delete vfrom vto etype self).1) as Heq.
      { subst grown. cbn [exec]. unfold local. by destruct (add_delete _ _ _ _). }
      rewrite Heq. split_and!; [done .. |].
      destruct Hk' as [_ (_ & _ & Hp) _]. rewrite Heq, Hr in Hp.
      by apply kept_reference in Hp.
    + destruct (add_vertex_update_grows vtx vtype weight incr self Hwf Hfull)
        as (Hs & Hl & Hr & _).
      assert (grown.1 = (add_vertex_update vtx vtype weight incr self).1)
        as Heq.
      { subst grown. cbn [exec]. unfold local.
        by destruct (add_vertex_update _ _ _ _ _). }
      rewrite Heq. split_and!; [done .. |].
      destruct Hk' as [_ _ (_ & _ & Hp)]. rewrite Heq, Hr in Hp.
      by apply kept_reference in Hp.
  - intros Hc. split; [by apply Hk |]. apply keeps_trans with grown.1; auto.
  - destruct later as [self2 lib2].
    by pose proof (send_batch_step self2 lib2) as (_ & _ & _ & ? & _).
Qed.

(* ===================================================================== *)
(** ** The mode flag (C9) *)
(* ===================================================================== *)

Lemma insert_fields_some strings vfrom vto etype weight ts r :
  ∃ r' o, insert_fields strings vfrom vto etype weight ts (Some r)
          = (Some r', o).
Proof.
  destruct strings, vfrom, vto, etype, weight, ts; eexists _, _; reflexivity.
Qed.

Lemma delete_fields_some strings vfrom vto etype r :
  ∃ r' o, delete_fields strings vfrom vto etype (Some r) = (Some r', o).
Proof. destruct strings, vfrom, vto, etype; eexists _, _; reflexivity. Qed.

Lemma vertex_fields_some strings vtx vtype weight incr_weight r :
  ∃ r' o, vertex_fields strings vtx vtype weight incr_weight (Some r)
          = (Some r', o).
Proof.
  destruct strings, vtx, vtype, weight, incr_weight; eexists _, _;
    reflexivity.
Qed.

(** An add call ends as the field assignments end on the slot at the
    count, and leaves in that slot the record they produce. *)
Ltac writes_with self Hlen Hcount Hpos lemma :=
  unfold_method; destruct self; simpl in *;
  match goal with
  | |- context [grow ?z ?size ?count ?arr ?refs] =>
      let Hgrow := fresh "Hgrow" in
      destruct (grow z size count arr refs) as [[size' arr'] refs'] eqn:Hgrow;
      simpl;
      match goal with
      | |- context [at_index ?p count arr'] =>
          pose proof (buffer_step z p _ _ _ _ _ _ _ Hlen Hcount Hpos Hgrow)
            as (_ & _ & _ & [r Hr]);
          let r' := fresh "r'" in
          let o := fresh "o" in
          let Hr' := fresh "Hr'" in
          assert (∃ r' o, p (Some r) = (Some r', o)) as (r' & o & Hr')
            by apply lemma;
          rewrite (at_index_some _ _ _ _ _ _ Hr Hr');
          exists r, r'; rewrite Hr';
          apply lookup_lt_Some in Hr;
          destruct o as [[]|e]; simpl;
          (split; [done | by apply list_lookup_insert_eq])
      end
  end.

Lemma add_insert_writes vfrom vto etype weight ts ins self :
  wf self →
  ∃ r0 r',
    insert_fields (default (only_strings self) ins) vfrom vto etype weight ts
                  (Some r0)
    = (Some r', (add_insert vfrom vto etype weight ts ins self).2)
    ∧ insertions (add_insert vfrom vto etype weight ts ins self).1
        !! insertions_count self
      = Some r'.
Proof.
  intros [(Hlen & Hcount & Hpos) _ _]. unfold default.
  writes_with self Hlen Hcount Hpos insert_fields_some.
Qed.

Lemma add_delete_writes vfrom vto etype self :
  wf self →
  ∃ r0 r',
    delete_fields (only_strings self) vfrom vto etype (Some r0)
    = (Some r', (add_delete vfrom vto etype self).2)
    ∧ deletions (add_delete vfrom vto etype self).1 !! deletions_count self
      = Some r'.
Proof.
  intros [_ (Hlen & Hcount & Hpos) _].
  writes_with self Hlen Hcount Hpos delete_fields_some.
Qed.

Lemma add_vertex_update_writes vtx vtype weight incr_weight self :
  wf self →
  ∃ r0 r',
    vertex_fields (only_strings self) vtx vtype weight incr_weight (Some r0)
    = (Some r', (add_vertex_update vtx vtype weight incr_weight self).2)
    ∧ vertex_updates (add_vertex_update vtx vtype weight incr_weight self).1
        !! vertex_updates_count self
      = Some r'.
Proof.
  intros [_ _ (Hlen & Hcount & Hpos)].
  writes_with self Hlen Hcount Hpos vertex_fields_some.
Qed.

Ltac run_fields Hf :=
  cbv [insert_fields delete_fields vertex_fields edge_endpoints edge_type
       assign bind lift isinstance_str c_int64 c_char_p] in Hf;
  simplify_eq.

Lemma add_insert_reads vfrom vto etype weight ts ins self :
  wf self →
  edge_reads (default (only_strings self) ins) vfrom vto
             (is_int weight && is_int ts)
             (add_insert vfrom vto etype weight ts ins self).2
             (insertions (add_insert vfrom vto etype weight ts ins self).1
                !! insertions_count self).
Proof.
  intros Hwf.
  destruct (add_insert_writes vfrom vto etype weight ts ins self Hwf)
    as (r0 & r' & Hf & ->).
  revert Hf. generalize (add_insert vfrom vto etype weight ts ins self).2.
  unfold edge_reads.
  destruct (default (only_strings self) ins), vfrom, vto, etype, weight, ts;
    simpl; intros o Hf; try discriminate; try intros _; run_fields Hf;
    try done; (split; [done | eexists; split_and!; done]).
Qed.

Lemma add_delete_reads vfrom vto etype self :
  wf self →
  edge_reads (only_strings self) vfrom vto true
             (add_delete vfrom vto etype self).2
             (deletions (add_delete vfrom vto etype self).1
                !! deletions_count self).
Proof.
  intros Hwf.
  destruct (add_delete_writes vfrom vto etype self Hwf)
    as (r0 & r' & Hf & ->).
  revert Hf. generalize (add_delete vfrom vto etype self).2.
  unfold edge_reads.
  destruct (only_strings self), vfrom, vto, etype;
    simpl; intros o Hf; try intros _; run_fields Hf;
    try done; (split; [done | eexists; split_and!; done]).
Qed.

Lemma add_vertex_update_reads vtx vtype weight incr_weight self :
  wf self →
  vertex_reads (only_strings self) vtx (is_int weight && is_int incr_weight)
    (add_vertex_update vtx vtype weight incr_weight self).2
    (vertex_updates (add_vertex_update vtx vtype weight incr_weight self).1
       !! vertex_updates_count self).
Proof.
  intros Hwf.
  destruct (add_vertex_update_writes vtx vtype weight incr_weight self Hwf)
    as (r0 & r' & Hf & ->).
  revert Hf. generalize (add_vertex_update vtx vtype weight incr_weight self).2.
  unfold vertex_reads.
  destruct (only_strings self), vtx, vtype, weight, incr_weight;
    simpl; intros o Hf; try discriminate; try intros _; run_fields Hf;
    try done; (split; [done | eexists; split_and!; done]).
Qed.

Ltac skip_buffers :=
  repeat match goal with
         | |- context [grow ?z ?size ?count ?arr ?refs] =>
             destruct (grow z size count arr refs) as [[? ?] ?]; simpl
         | |- context [at_index ?p ?i ?a] =>
             destruct (at_index p i a) as [? [[]|?]]; simpl
         end.

(** The flag after a call, on any stream and however the call ends. *)
Lemma exec_mode c self (lib : L) :
  only_strings (exec c (self, lib)).1.1 = mode_of (only_strings self) c.
Proof.
  destruct c as [vfrom vto etype weight ts ins|vfrom vto etype
                |vtx vtype weight incr|]; cbn [exec].
  - unfold local. unfold_method. destruct self; simpl. skip_buffers;
      by destruct ins.
  - unfold local. unfold_method. destruct self; simpl. by skip_buffers.
  - unfold local. unfold_method. destruct self; simpl. by skip_buffers.
  - apply send_batch_step.
Qed.

Lemma run_mode cs : ∀ (w : t * L),
  only_strings (run cs w).1.1 = foldl mode_of (only_strings w.1) cs.
Proof.
  induction cs as [|c cs IH]; intros [self lib]; [done |].
  rewrite run_cons. cbn [fst foldl]. rewrite IH.
  destruct (exec c (self, lib)) as [[self' lib'] o] eqn:He.
  cbn [fst]. f_equal.
  by rewrite <- (exec_mode c self lib), He.
Qed.

Lemma mode_unset b cs :
  forallb (fun c => negb (sets_mode c)) cs = true → foldl mode_of b cs = b.
Proof.
  induction cs as [|c cs IH]; [done |].
  intros [Hc Hcs]%andb_prop. cbn [foldl].
  replace (mode_of b c) with b; [by apply IH |].
  by destruct c as [? ? ? ? ? [?|]| | |].
Qed.

Lemma c_int_b2z b : c_int (Z.b2z b) = Z.b2z b.
Proof. by destruct b. Qed.

(** C9.  An [add_insert] given [insert_strings = b] sets the mode flag of
    the stream to [b], however the call ends; given [None] it leaves the
    flag as it was.  The flag then persists: [add_delete],
    [add_vertex_update], [send_batch] and [add_insert] calls without
    [insert_strings] do not change it, it is the flag the next
    [send_batch] hands to the library, and it decides how every later add
    call reads its endpoint arguments (as names when set, as ids when
    not). *)
Theorem only_strings_persists (lib : L) self vfrom vto etype weight ts ins
        cs :
  forallb (fun c => negb (sets_mode c)) cs = true →
  let set := (exec (AddInsert vfrom vto etype weight ts ins) (self, lib)).1 in
  let later := (run cs set).1 in
  let flag := default (only_strings self) ins in
  only_strings set.1 = flag
  ∧ only_strings later.1 = flag
  ∧ (∀ c, sets_mode c = false → only_strings (exec c later).1.1 = flag)
  ∧ ((send_batch later).1.2
     = (stream_send_batch (batch_args later.1) later.2).2
     ∧ arg_only_strings (batch_args later.1) = Z.b2z flag)
  ∧ (wf self →
     (∀ a b e w ts',
        edge_reads flag a b (is_int w && is_int ts')
          (add_insert a b e w ts' None later.1).2
          (insertions (add_insert a b e w ts' None later.1).1
             !! insertions_count later.1))
     ∧ (∀ a b e,
          edge_reads flag a b true
            (add_delete a b e later.1).2
            (deletions (add_delete a b e later.1).1
               !! deletions_count later.1))
     ∧ (∀ v ty w i,
          vertex_reads flag v (is_int w && is_int i)
            (add_vertex_update v ty w i later.1).2
            (vertex_updates (add_vertex_update v ty w i later.1).1
               !! vertex_updates_count later.1))).
Proof.
  intros Hplain set later flag.
  assert (only_strings set.1 = flag) as Hset.
  { subst set flag. rewrite exec_mode. by destruct ins. }
  assert (only_strings later.1 = flag) as Hlater.
  { subst later. by rewrite run_mode, mode_unset. }
  split_and!; [done | done | | | | ].
  - intros c Hc. destruct later as [self2 lib2]. rewrite exec_mode.
    cbn [fst] in *. rewrite Hlater. by destruct c as [? ? ? ? ? [?|]| | |].
  - destruct later as [self2 lib2]. apply send_batch_step.
  - unfold batch_args. cbn [arg_only_strings]. by rewrite c_int_b2z, Hlater.
  - intros Hwf.
    pose proof (exec_step (AddInsert vfrom vto etype weight ts ins) self lib
                          Hwf) as (Hwf1 & _).
    fold set in Hwf1.
    assert (wf later.1) as Hwf2.
    { subst later. destruct set as [self1 lib1].
      by apply (run_facts cs self1 lib1 Hwf1). }
    rewrite <- Hlater. split_and!.
    + intros a b e w ts'.
      by apply (add_insert_reads a b e w ts' None later.1 Hwf2).
    + intros a b e. by apply add_delete_reads.
    + intros v ty w i. by apply add_vertex_update_reads.
Qed.

(* ===================================================================== *)
(** ** Sending (C8) *)
(* ===================================================================== *)

(** C8 (as the code has it).  [send_batch] makes one [stream_send_batch]
    call: it passes the socket handle and the mode flag as C [int]s, each
    of the three arrays with its count as a [c_int64], and the
    [undirected] flag.  It returns [None] once that call is back, with
    the three counts at [0] and the three reference lists empty; the
    arrays, the capacities, the handle and the flags are as they were.
    The value the library call hands back is dropped: how [send_batch]
    ends and the state it leaves the stream in are the same for every
    library and every library state, so a failure the library reports is
    not surfaced to the caller. *)
Theorem send_batch_drops_status (lib : L) self :
  let sent := send_batch (self, lib) in
  let args := batch_args self in
  sent.2 = Return tt
  ∧ sent.1.2 = (stream_send_batch args lib).2
  ∧ (arg_sock_handle args = c_int (sock_handle self)
     ∧ arg_only_strings args = c_int (Z.b2z (only_strings self))
     ∧ arg_insertions args = insertions self
     ∧ arg_insertions_count args = wrap64 (Z.of_nat (insertions_count self))
     ∧ arg_deletions args = deletions self
     ∧ arg_deletions_count args = wrap64 (Z.of_nat (deletions_count self))
     ∧ arg_vertex_updates args = vertex_updates self
     ∧ arg_vertex_updates_count args
       = wrap64 (Z.of_nat (vertex_updates_count self))
     ∧ arg_undirected args = undirected self)
  ∧ counts sent.1.1 = (0, 0, 0)%nat
  ∧ (insertions_refs sent.1.1 = [] ∧ deletions_refs sent.1.1 = []
     ∧ vertex_updates_refs sent.1.1 = [])
  ∧ sent.1.1
    = StingerStream.mk
        (sock_handle self)
        (insertions_size self) (insertions self) [] 0
        (deletions_size self) (deletions self) [] 0
        (vertex_updates_size self) (vertex_updates self) [] 0
        (only_strings self) (undirected self)
  ∧ (∀ (L' : Type) (H' : LibStinger L') (lib' : L'),
       (@send_batch L' H' (self, lib')).2 = sent.2
       ∧ (@send_batch L' H' (self, lib')).1.1 = sent.1.1).
Proof.
  cbv zeta.
  pose proof (send_batch_step self lib) as (Ho & Hl & Hc & Hrefs & _).
  split; [done |]. split; [done |]. split; [by split_and! |].
  split; [done |]. split; [done |]. split.
  - unfold send_batch.
    destruct (stream_send_batch (batch_args self) lib) as [status lib1].
    by destruct self.
  - intros L' H' lib'. unfold send_batch.
    destruct (stream_send_batch (batch_args self) lib) as [status1 lib1].
    by destruct (stream_send_batch (batch_args self) lib') as [status2 lib2].
Qed.

End StreamFacts.

(* ===================================================================== *)
(** ** The stream theorems at work *)
(* ===================================================================== *)

Section StreamExamples.
Import StingerStream Batch.

Lemma started_init strings :
  __init__ "localhost" 10102 strings false (Server.start true)
  = ((started strings).2, Return (started strings).1).
Proof. reflexivity. Qed.

Lemma started_wf strings : wf (started strings).1.
Proof. by eapply init_facts, started_init. Qed.

Lemma filled_wf : wf filled.1.
Proof.
  unfold filled. pose proof (started_wf true) as Hwf.
  destruct (started true) as [self srv]. by apply run_facts.
Qed.

Lemma stream_counts_follow_calls_witness :
  __init__ "localhost" 10102 true false (Server.start true)
  = ((started true).2, Return (started true).1)
  ∧ (run three_then_one (started true)).2 = replicate 5 (Return tt)
  ∧ counts (run three_then_one (started true)).1.1 = (1, 0, 0)%nat.
Proof.
  split; [reflexivity |].
  pose proof (stream_counts_follow_calls
                "localhost" 10102 true false (Server.start true)
                (started true).2 (started true).1 three_then_one eq_refl)
    as (_ & Htyped & _).
  exact (Htyped eq_refl).
Defined.

Lemma growth_preserves_records_witness :
  let c := AddInsert (PInt 7) (PInt 8) (PInt 0) (PInt 1) (PInt 0) None in
  let cs := [AddDelete (PInt 1) (PInt 2) (PInt 0)] in
  let grown := (exec c (filled.1, filled.2)).1 in
  let later := (run cs grown).1 in
  (insertions_size filled.1 ≤ insertions_count filled.1)%nat
  ∧ insertions_size grown.1 = (insertions_size filled.1 * 2)%nat
  ∧ insertions filled.1 ∈ insertions_refs later.1
  ∧ keeps filled.1 later.1.
Proof.
  intros c cs grown later.
  assert (insertions_size filled.1 ≤ insertions_count filled.1)%nat as Hfull
    by (vm_compute; lia).
  destruct (growth_preserves_records filled.2 filled.1 c cs filled_wf eq_refl)
    as (Hgrows & Hkeeps & _).
  destruct (Hgrows Hfull) as (Hsize & _ & _ & Hrefs).
  split_and!; [done | done | done |].
  by apply Hkeeps.
Defined.

Lemma only_strings_persists_witness :
  let cs := [AddDelete (PInt 1) (PInt 2) (PInt 0);
             AddVertexUpdate (PInt 1) (PInt 0) (PInt 0) (PInt 0);
             AddInsert (PInt 2) (PInt 3) (PInt 0) (PInt 1) (PInt 0) None] in
  let set :=
    (exec (AddInsert (PInt 1) (PInt 2) (PInt 0) (PInt 1) (PInt 0) (Some false))
          ((started true).1, (started true).2)).1 in
  let later := (run cs set).1 in
  forallb (fun c => negb (sets_mode c)) cs = true
  ∧ only_strings (started true).1 = true
  ∧ only_strings later.1 = false
  ∧ arg_only_strings (batch_args later.1) = 0.
Proof.
  intros cs set later. split; [reflexivity |]. split; [reflexivity |].
  destruct (only_strings_persists
              (started true).2 (started true).1
              (PInt 1) (PInt 2) (PInt 0) (PInt 1) (PInt 0) (Some false) cs
              eq_refl)
    as (_ & Hlater & _ & [_ Hsent] & _).
  split; [exact Hlater | exact Hsent].
Defined.

(* ===================================================================== *)
(** ** Records and their two representations (C5) *)
(* ===================================================================== *)

(** C5 (where the code departs from it).  Written to a slot that is still
    zeroed, a record added by names has its integer endpoints at [0] and
    one added by ids has null name pointers.  But [send_batch] resets the
    counts only, not the arrays: after an insertion by ids with a named
    edge type and a send, an insertion by names with a numbered edge type
    is written over the first record, and the record read back has both
    representations set: the names ["a"], ["b"] next to the stale ids [1],
    [2], and the type [0] next to the stale type name ["t"]. *)
Theorem stale_representation_after_send :
  (∀ a b e w ts',
     ∃ rec, insert_fields true (PStr a) (PStr b) (PInt e) (PInt w) (PInt ts')
                          (Some E.zero)
            = (Some rec, Return tt)
            ∧ E.source_str rec = StrPtr a ∧ E.destination_str rec = StrPtr b
            ∧ E.source rec = 0 ∧ E.destination rec = 0
            ∧ E.etype_str rec = NULL)
  ∧ (∀ x y e w ts',
       ∃ rec, insert_fields false (PInt x) (PInt y) (PInt e) (PInt w)
                            (PInt ts') (Some E.zero)
              = (Some rec, Return tt)
              ∧ E.source rec = wrap64 x ∧ E.destination rec = wrap64 y
              ∧ E.source_str rec = NULL ∧ E.destination_str rec = NULL
              ∧ E.etype_str rec = NULL)
  ∧ (let final := run ids_then_names (started true) in
     final.2 = [Return tt; Return tt; Return tt]
     ∧ insertions_count final.1.1 = 1%nat
     ∧ ∃ rec, insertions final.1.1 !! 0%nat = Some rec
              ∧ E.source_str rec = StrPtr "a"
              ∧ E.destination_str rec = StrPtr "b"
              ∧ E.source rec = 1 ∧ E.destination rec = 2
              ∧ E.etype rec = 0 ∧ E.etype_str rec = StrPtr "t").
Proof.
  split_and!.
  - intros. eexists. split; [reflexivity |]. by split_and!.
  - intros. eexists. split; [reflexivity |]. by split_and!.
  - vm_compute. split_and!; [done | done |]. eexists. by split_and!.
Qed.

(** C8, refuted as stated: with the example server, a send over a link
    that is down (status [-1]) ends for the caller exactly as the send of
    an empty batch over a link that is up (status [0]). *)
Lemma send_failure_not_surfaced :
  ¬ @surfaces_failure Server.t Server.lib (fun status => negb (status =? 0)).
Proof.
  intros Hsurfaced.
  apply (Hsurfaced (run three_then_one (started true)).1.1 (started true).1
                   (Server.start false) (Server.start true));
    reflexivity.
Qed.

End StreamExamples.

(* ===================================================================== *)
(** ** Phase calls (C6) *)
(* ===================================================================== *)

Section AlgFacts.
Import Phase StingerAlg.
Context `{LibStinger L}.

Lemma exec_forwards self c (lib : L) :
  exec self c lib = ((entry c (alg_ptr self) lib).2, Return tt).
Proof. by destruct c. Qed.

(** C6 (as the code has it).  A [StingerAlg] keeps no phase state: each of
    the six methods hands its request to the library entry point of the
    same name and returns [None], whatever the library answers and
    whatever was called before.  So every sequence of phase calls, in
    order or not, is passed on call by call and none of them raises;
    whether a call out of order is refused is left to the library and the
    server. *)
Theorem phase_calls_forwarded self cs (lib : L) :
  run self cs lib
  = (forwarded self cs lib, replicate (length cs) (Return tt)).
Proof.
  revert lib. induction cs as [|c cs IH]; intros lib; [done |].
  cbn [run]. rewrite exec_forwards, IH. done.
Qed.

End AlgFacts.

(** C6, refuted as stated: on the example server, which answers a request
    out of order with status [-1], [end_pre] with no [begin_pre] before it
    returns like any other call. *)
Lemma end_pre_unmatched_tolerated :
  ¬ StingerAlg.rejects_violations (Server.start true).
Proof.
  intros Hrejects.
  specialize (Hrejects (StingerAlg.mk 1) [Phase.EndPre] eq_refl).
  apply Exists_cons in Hrejects as [Hhead|Htail]; [done |].
  by apply Exists_nil in Htail.
Qed.

(* ===================================================================== *)
(** ** Building a data view (C3, C7) *)
(* ===================================================================== *)

Section ViewFacts.
Import StingerDataArray Layout.
Context `{LibStinger L}.


(** [index] finds the first position of a member. *)
Lemma index_first x l :
  x ∈ l →
  ∃ k, index x l = Return k ∧ l !! k = Some x
       ∧ ∀ j, (j < k)%nat → l !! j ≠ Some x.
Proof.
  induction l as [|y l IH]; [by intros ?%elem_of_nil |].
  intros Hin. cbn [index]. destruct (String.eqb y x) eqn:Hyx.
  - apply String.eqb_eq in Hyx as ->. exists 0%nat.
    split_and!; [done | done | lia].
  - apply String.eqb_neq in Hyx.
    apply elem_of_cons in Hin as [->|Hin]; [done |].
    destruct (IH Hin) as (k & -> & Hk & Hfirst). exists (S k).
    split_and!; [done | done |].
    intros [|j] Hj; simpl; [congruence | apply Hfirst; lia].
Qed.

Lemma foldl_widths tags : ∀ k a,
  foldl Z.add a (width <$> take k (list_ascii_of_string tags))
  = a + widths_before tags k.
Proof.
  induction tags as [|c tags IH]; intros [|k] a; simpl; try lia.
  rewrite IH. lia.
Qed.

Lemma str_getitem_in_range tags : ∀ k,
  (k < String.length tags)%nat → is_Some (String.get k tags).
Proof.
  induction tags as [|c tags IH]; intros [|k] Hk; simpl in *;
    [lia | lia | done | apply IH; lia].
Qed.

Lemma widths_before_next tags : ∀ k tag,
  String.get k tags = Some tag →
  widths_before tags (S k) = widths_before tags k + width tag.
Proof.
  induction tags as [|c tags IH]; intros [|k] tag Hk; simpl in *;
    try discriminate.
  - injection Hk as ->. lia.
  - pose proof (IH k tag Hk) as IHk. simpl in IHk. lia.
Qed.

(** The width the offset counts for a tag is the size of the element type
    the view is cast to, for every tag character. *)
Lemma width_sizeof c : width c = sizeof (pointer_type c).
Proof.
  unfold width, pointer_type.
  destruct (Ascii.eqb c "d"), (Ascii.eqb c "f") eqn:Hf,
           (Ascii.eqb c "l") eqn:Hl, (Ascii.eqb c "i") eqn:Hi; try done.
  all: apply Ascii.eqb_eq in Hf; apply Ascii.eqb_eq in Hl; congruence.
Qed.


(** Addresses: what the pointer arithmetic of ctypes comes to. *)
Lemma wrap_addr_small z : 0 <= z < 2 ^ 64 → wrap_addr z = z.
Proof. intros Hz. unfold wrap_addr. by apply Z.mod_small. Qed.

Lemma wrap_addr_offset a x : wrap_addr (a + wrap64 x) = wrap_addr (a + x).
Proof.
  unfold wrap_addr, wrap64.
  pose proof (Z.div_mod (x + 2 ^ 63) (2 ^ 64) ltac:(lia)) as Hdiv.
  replace (a + ((x + 2 ^ 63) mod 2 ^ 64 - 2 ^ 63))
    with (a + x + (- ((x + 2 ^ 63) / 2 ^ 64)) * 2 ^ 64) by lia.
  apply Z_mod_plus_full.
Qed.

Lemma element_addr_wraps self i :
  element_addr self i
  = (data self + i * sizeof (element_type self)) mod 2 ^ 64.
Proof. unfold element_addr. by rewrite wrap_addr_offset. Qed.

Lemma element_addr_in_space self i :
  0 <= data self → 0 <= i →
  data self + (i + 1) * sizeof (element_type self) <= 2 ^ 64 →
  element_addr self i = data self + i * sizeof (element_type self).
Proof.
  intros Hdata Hi Hend. rewrite element_addr_wraps.
  assert (0 < sizeof (element_type self)) by by destruct (element_type self).
  apply Z.mod_small. nia.
Qed.



End ViewFacts.

(* ===================================================================== *)
(** ** Reading and writing elements (C4, C10) *)
(* ===================================================================== *)

Section AccessFacts.
Import StingerDataArray Layout.
Context `{LibStinger L}.

Lemma load_store addr raw m :
  load (store addr raw m) addr (Z.of_nat (length raw)) = raw.
Proof.
  unfold load. apply list_eq. intros i. rewrite list_lookup_fmap.
  destruct (decide (i < length raw)%nat) as [Hi|Hi].
  - rewrite lookup_seqZ_lt by lia. simpl. unfold store.
    rewrite decide_True by lia.
    replace (Z.to_nat (addr + Z.of_nat i - addr)) with i by lia.
    destruct (lookup_lt_is_Some_2 raw i Hi) as [b Hb]. by rewrite Hb.
  - rewrite lookup_seqZ_ge by lia. simpl. by rewrite lookup_ge_None_2 by lia.
Qed.

Lemma store_other addr raw m a :
  a < addr ∨ addr + Z.of_nat (length raw) <= a → store addr raw m a = m a.
Proof.
  intros Ha. unfold store. case_decide; [| done].
  rewrite lookup_ge_None_2 by lia. done.
Qed.

Lemma to_raw_same ty k : c_type k = ty → to_raw ty k = Return (c_raw k).
Proof. intros <-. unfold to_raw. by destruct (c_type k). Qed.

Lemma to_raw_other ty k : c_type k ≠ ty → to_raw ty k = Raise TypeError.
Proof. intros Hne. unfold to_raw. by destruct ty, (c_type k). Qed.

(** What [self.data[j]] comes to, by the index and the pointer. *)
Lemma item_addr_at self j :
  addressable self j →
  item_addr self j = Return (data self + j * sizeof (element_type self)).
Proof.
  intros (Hdata & Hj & Hend). unfold item_addr, as_ssize_t.
  rewrite decide_True by lia. rewrite decide_False by lia.
  by rewrite element_addr_in_space by lia.
Qed.

Lemma item_addr_wraps self j :
  0 <= j < 2 ^ 63 → data self ≠ 0 →
  item_addr self j
  = Return ((data self + j * sizeof (element_type self)) mod 2 ^ 64).
Proof.
  intros Hj Hdata. unfold item_addr, as_ssize_t.
  rewrite decide_True by lia. rewrite decide_False by done.
  by rewrite element_addr_wraps.
Qed.

Lemma item_addr_too_large self j :
  2 ^ 63 <= j → item_addr self j = Raise IndexError.
Proof.
  intros Hj. unfold item_addr, as_ssize_t. by rewrite decide_False by lia.
Qed.

Lemma item_addr_null self j :
  0 <= j < 2 ^ 63 → data self = 0 → item_addr self j = Raise ValueError.
Proof.
  intros Hj Hdata. unfold item_addr, as_ssize_t.
  rewrite decide_True by lia. by rewrite decide_True.
Qed.

(** What the two accessors do once the index is resolved to [j]. *)
Lemma access_at (lib : L) self i k m :
  let j := resolve lib self i in
  let ty := element_type self in
  (j < 0 →
   __getitem__ lib self i m = Return (PyInt 0)
   ∧ __setitem__ lib self i k m = (m, Return (PyInt 0)))
  ∧ (0 <= j → ∀ addr, item_addr self j = Return addr →
     __getitem__ lib self i m
     = Return (Elem (CData ty (load m addr (sizeof ty))))
     ∧ (c_type k = ty →
        __setitem__ lib self i k m
        = (store addr (c_raw k) m, Return (Elem k)))
     ∧ (c_type k ≠ ty → __setitem__ lib self i k m = (m, Raise TypeError)))
  ∧ (0 <= j → ∀ e, item_addr self j = Raise e →
     __getitem__ lib self i m = Raise e
     ∧ __setitem__ lib self i k m = (m, Raise e)).
Proof.
  intros j ty. unfold __getitem__, __setitem__. fold j ty. split_and!.
  - intros Hj. rewrite !decide_False by lia. done.
  - intros Hj addr Haddr. rewrite !decide_True by lia.
    rewrite Haddr. split_and!; [done | |].
    + intros Hty. unfold bind, lift, modify, ret. by rewrite to_raw_same.
    + intros Hty. unfold bind, lift. by rewrite to_raw_other.
  - intros Hj e He. rewrite !decide_True by lia. by rewrite He.
Qed.

(** Outside the address space: an index that does not fit a [ssize_t] is
    an [IndexError] and a null view a [ValueError], from [get] and from
    [set], which writes nothing; an element whose address passes [2^64]
    is accessed at that address modulo [2^64]. *)
Lemma access_outside (lib : L) self i k m :
  let j := resolve lib self i in
  let ty := element_type self in
  (2 ^ 63 <= j →
   __getitem__ lib self i m = Raise IndexError
   ∧ __setitem__ lib self i k m = (m, Raise IndexError))
  ∧ (0 <= j < 2 ^ 63 → data self = 0 →
     __getitem__ lib self i m = Raise ValueError
     ∧ __setitem__ lib self i k m = (m, Raise ValueError))
  ∧ (0 <= j < 2 ^ 63 → data self ≠ 0 →
     let addr := (data self + j * sizeof ty) mod 2 ^ 64 in
     __getitem__ lib self i m
     = Return (Elem (CData ty (load m addr (sizeof ty))))
     ∧ (c_type k = ty →
        __setitem__ lib self i k m
        = (store addr (c_raw k) m, Return (Elem k)))).
Proof.
  intros j ty. destruct (access_at lib self i k m) as (_ & Hpos & Hexn).
  fold j ty in Hpos, Hexn. split_and!.
  - intros Hj. apply Hexn; [lia |]. by apply item_addr_too_large.
  - intros Hj Hdata. apply Hexn; [lia |]. by apply item_addr_null.
  - intros Hj Hdata addr.
    destruct (Hpos ltac:(lia) addr (item_addr_wraps self j Hj Hdata))
      as (Hget & Hset & _).
    done.
Qed.

(** C4.  An integer index is used as it is and a name is resolved through
    [get_mapping], that is [stinger_mapping_lookup].  When the resolved
    index is negative, [get] returns the Python integer [0], whatever the
    field's type (it is the number zero of every one of the five numeric
    element types), and [set] returns [0] and leaves the memory as it
    was.  When the index is not negative and element [i] lies in the
    address space, [get] returns the element of the view's type at the
    view's address plus [i] element sizes, and [set] with a value of that
    type writes its bytes there and returns the value, after which [get]
    reads it back. *)
Theorem degenerate_access (lib : L) self i k m :
  let j := resolve lib self i in
  let ty := element_type self in
  ((∀ z, resolve lib self (PInt z) = z)
   ∧ (∀ name, resolve lib self (PStr name)
              = stinger_mapping_lookup (Stinger.s (s self)) name
                  (Z.of_nat (String.length name)) lib))
  ∧ (j < 0 →
     __getitem__ lib self i m = Return (PyInt 0)
     ∧ __setitem__ lib self i k m = (m, Return (PyInt 0)))
  ∧ (addressable self j →
     let addr := data self + j * sizeof ty in
     __getitem__ lib self i m
     = Return (Elem (CData ty (load m addr (sizeof ty))))
     ∧ (c_type k = ty →
        __setitem__ lib self i k m
        = (store addr (c_raw k) m, Return (Elem k))
        ∧ (Z.of_nat (length (c_raw k)) = sizeof ty →
           __getitem__ lib self i (store addr (c_raw k) m)
           = Return (Elem k)))).
Proof.
  intros j ty. destruct (access_at lib self i k m) as (Hneg & Hpos & _).
  fold j ty in Hneg, Hpos. split_and!; [done | done | done |].
  intros Hj addr. pose proof Hj as (_ & [Hj0 _] & _).
  destruct (Hpos Hj0 addr (item_addr_at self j Hj)) as (Hget & Hset & _).
  split; [done |]. intros Hty. split; [by apply Hset |].
  intros Hsize.
  destruct (access_at lib self i k (store addr (c_raw k) m))
    as (_ & Hpos' & _).
  fold j ty in Hpos'.
  destruct (Hpos' Hj0 addr (item_addr_at self j Hj)) as (-> & _).
  rewrite <- Hsize, load_store, <- Hty. by destruct k.
Qed.

(** C10.  For a view over [nv] vertices and an index that resolves to
    [nv] or more, [get] and [set] do what they do for an index in range:
    as long as element [i] lies in the address space, they read and write
    at the view's address plus [i] element sizes, which is at or past the
    end of the field's [nv] elements.  The guard compares the index with
    [0] only; [nv] plays no part in it. *)
Theorem no_upper_bound_check (lib : L) self i k m :
  0 <= nv self → nv self <= resolve lib self i →
  addressable self (resolve lib self i) →
  let j := resolve lib self i in
  let ty := element_type self in
  let addr := data self + j * sizeof ty in
  __getitem__ lib self i m
  = Return (Elem (CData ty (load m addr (sizeof ty))))
  ∧ (c_type k = ty →
     __setitem__ lib self i k m
     = (store addr (c_raw k) m, Return (Elem k)))
  ∧ data self + nv self * sizeof ty <= addr.
Proof.
  intros Hnv Hi Hspace j ty addr.
  destruct (access_at lib self i k m) as (_ & Hpos & _).
  fold j ty in Hpos.
  destruct (Hpos ltac:(fold j in Hi; lia) addr (item_addr_at self j Hspace))
    as (Hget & Hset & _).
  split_and!; [done | done |].
  subst addr. assert (0 < sizeof ty) by by destruct ty.
  fold j in Hi. nia.
Qed.

End AccessFacts.

(* ===================================================================== *)
(** ** The view theorems at work *)
(* ===================================================================== *)

Section ViewExamples.
Import StingerDataArray Layout.

Lemma split_dfi : split "dfi x y z" = ["dfi"; "x"; "y"; "z"].
Proof. reflexivity. Qed.



(** Element [nv] of field [x] of ["ii x y"] is element [0] of field [y]. *)
Lemma no_upper_bound_check_witness :
  view_of "ii x y" "x" = Return view_x
  ∧ view_of "ii x y" "y" = Return view_y
  ∧ 0 <= nv view_x
  ∧ nv view_x <= resolve (Server.start true) view_x (PInt 10)
  ∧ addressable view_x (resolve (Server.start true) view_x (PInt 10))
  ∧ __setitem__ (Server.start true) view_x (PInt 10) seven zeroed
    = (store 4136 (c_raw seven) zeroed, Return (Elem seven))
  ∧ __getitem__ (Server.start true) view_y (PInt 0)
      (store 4136 (c_raw seven) zeroed)
    = Return (Elem seven).
Proof.
  assert (0 <= nv view_x) as Hnv by done.
  assert (nv view_x <= resolve (Server.start true) view_x (PInt 10)) as Hi
    by done.
  assert (addressable view_x (resolve (Server.start true) view_x (PInt 10)))
    as Hspace by (unfold addressable; simpl; lia).
  split_and!; [reflexivity | reflexivity | done | done | done | | reflexivity].
  destruct (no_upper_bound_check (Server.start true) view_x (PInt 10) seven
              zeroed Hnv Hi Hspace) as (_ & Hset & _).
  exact (Hset eq_refl).
Defined.

(** The scenario of a view over ["d score"] with ten vertices. *)
Example score_scenario :
  view_of "d score" "score" = Return view_score
  ∧ (let srv := Server.start true in
     let written := (__setitem__ srv view_score (PInt 3) two_and_a_half zeroed).1 in
     __getitem__ srv view_score (PInt 3) written
     = Return (Elem two_and_a_half)
     ∧ __getitem__ srv view_score (PInt (-1)) written = Return (PyInt 0)
     ∧ __getitem__ srv view_score (PStr "nobody") written
       = Return (PyInt 0)
     ∧ __setitem__ srv view_score (PInt (-1)) two_and_a_half written
       = (written, Return (PyInt 0))
     ∧ __getitem__ srv view_score (PInt (2 ^ 63)) written
       = Raise IndexError).
Proof. split; [reflexivity |]. cbv zeta. split_and!; reflexivity. Qed.

End ViewExamples.

(* ===================================================================== *)
(** ** More on streams: invariants, failed calls, the first batch *)
(* ===================================================================== *)

Section StreamMore.
Import StingerStream Batch Records.
Context `{LibStinger L}.

Ltac open_method :=
  unfold add_insert, add_delete, add_vertex_update, bind, modify, gets,
    on_insertion, on_deletion, on_vertex_update,
    grow_insertions, grow_deletions, grow_vertex_updates;
  lazy beta iota zeta.

Lemma holds_length {R} (zero : R) size count arr recs :
  holds zero size count arr recs → length arr = size.
Proof.
  intros (-> & _ & Hle & _). rewrite length_app, length_replicate. lia.
Qed.

(** Growing keeps the records and leaves room for one more. *)
Lemma grow_holds {R} (zero : R) size count arr refs recs size' arr' refs' :
  holds zero size count arr recs →
  grow zero size count arr refs = (size', arr', refs') →
  arr' = recs ++ replicate (size' - length recs) zero
  ∧ (length recs < size')%nat.
Proof.
  intros Hholds Hgrow. pose proof (holds_length _ _ _ _ _ Hholds) as Hlen.
  destruct Hholds as (Harr & -> & Hle & Hpos).
  destruct (decide (size ≤ length recs)%nat) as [Hfull|Hroom].
  - rewrite grow_full in Hgrow by done. simplify_eq.
    split; [| lia]. rewrite <- app_assoc. f_equal.
    rewrite <- replicate_add. f_equal. lia.
  - rewrite grow_room in Hgrow by lia. simplify_eq. split; [done | lia].
Qed.

(** One add on a buffer that holds [recs]: it then holds one more. *)
Lemma buffer_append {R} (zero : R) prog size count arr refs recs r'
      size' arr' refs' :
  holds zero size count arr recs →
  prog (Some zero) = (Some r', Return tt) →
  grow zero size count arr refs = (size', arr', refs') →
  ∃ arr'', at_index prog count arr' = (arr'', Return tt)
           ∧ holds zero size' (count + 1) arr'' (recs ++ [r']).
Proof.
  intros Hholds Hprog Hgrow.
  destruct (grow_holds _ _ _ _ _ _ _ _ _ Hholds Hgrow) as [-> Hlt].
  destruct Hholds as (_ & -> & _ & _).
  replace (size' - length recs)%nat with (S (size' - S (length recs)))
    by lia.
  eexists. split.
  - apply at_index_some with zero; [| done].
    by rewrite lookup_app_r, Nat.sub_diag by lia.
  - split_and!; [| by rewrite length_app; simpl | rewrite length_app; simpl; lia
                 | lia].
    rewrite length_app. simpl.
    replace (length recs) with (length recs + 0)%nat at 1 by lia.
    rewrite insert_app_r. simpl. rewrite <- app_assoc. simpl.
    do 3 f_equal. lia.
Qed.

Ltac append_with Hholds Hprog :=
  match goal with
  | |- context [grow ?z ?size ?count ?arr ?refs] =>
      let Hgrow := fresh "Hgrow" in
      destruct (grow z size count arr refs) as [[size' arr'] refs'] eqn:Hgrow;
      simpl;
      destruct (buffer_append _ _ _ _ _ _ _ _ _ _ _ Hholds Hprog Hgrow)
        as (arr'' & -> & Hholds');
      simpl
  end.

(** A call of the documented types on a stream still in its first batch:
    it returns and its record joins the others of its kind. *)
Lemma exec_first_batch c self (lib : L) ins dels vus :
  first_batch self ins dels vus →
  well_typed (only_strings self) c = true → c ≠ SendBatch →
  (exec c (self, lib)).2 = Return tt
  ∧ first_batch (exec c (self, lib)).1.1
      (ins ++ inserted (only_strings self) c)
      (dels ++ deleted (only_strings self) c)
      (vus ++ updated (only_strings self) c).
Proof.
  intros [Hi Hd Hv] Htyped Hsend.
  destruct c as [vfrom vto etype weight ts ins'|vfrom vto etype
                |vtx vtype weight incr|]; [| | | done];
    cbn [exec inserted deleted updated]; rewrite ?app_nil_r; unfold local.
  - destruct (insert_fields_returns _ vfrom vto etype weight ts E.zero Htyped)
      as [r' Hr'].
    rewrite Hr'. revert Hr'. open_method. destruct self; simpl in *.
    intros Hr'. append_with Hi Hr'. by split.
  - destruct (delete_fields_returns _ vfrom vto etype E.zero Htyped)
      as [r' Hr'].
    rewrite Hr'. revert Hr'. open_method. destruct self; simpl in *.
    intros Hr'. append_with Hd Hr'. by split.
  - destruct (vertex_fields_returns _ vtx vtype weight incr V.zero Htyped)
      as [r' Hr'].
    rewrite Hr'. revert Hr'. open_method. destruct self; simpl in *.
    intros Hr'. append_with Hv Hr'. by split.
Qed.

Lemma run_first_batch cs : ∀ self (lib : L) ins dels vus,
  first_batch self ins dels vus →
  all_well_typed (only_strings self) cs = true → no_send cs = true →
  first_batch (run cs (self, lib)).1.1
    (ins ++ records_of inserted (only_strings self) cs)
    (dels ++ records_of deleted (only_strings self) cs)
    (vus ++ records_of updated (only_strings self) cs).
Proof.
  induction cs as [|c cs IH]; intros self lib ins dels vus Hfirst Htyped Hsend.
  { simpl. by rewrite !app_nil_r. }
  cbn [all_well_typed no_send forallb] in Htyped, Hsend.
  apply andb_prop in Htyped as [Hc Hcs]. apply andb_prop in Hsend as [Hn Hns].
  rewrite run_cons. cbn [fst records_of].
  destruct (exec_first_batch c self lib ins dels vus Hfirst Hc) as [_ Hnext].
  { by destruct c. }
  pose proof (exec_mode c self lib) as Hmode.
  destruct (exec c (self, lib)) as [[self' lib'] o]. cbn [fst] in *.
  rewrite <- Hmode in Hcs |- *. rewrite !app_assoc.
  by apply IH.
Qed.

Lemma init_first_batch host port strings undirected (lib lib0 : L) self0 :
  __init__ host port strings undirected lib = (lib0, Return self0) →
  first_batch self0 [] [] [].
Proof.
  unfold __init__. destruct (stream_connect host (c_int port) lib).
  intros Heq.
  apply (f_equal (fun r => match r.2 with Return a => a | Raise _ => self0 end))
    in Heq.
  cbv beta iota delta [snd] in Heq. subst self0.
  split; unfold holds;
    cbn [insertions deletions vertex_updates insertions_size deletions_size
         vertex_updates_size insertions_count deletions_count
         vertex_updates_count app length];
    rewrite Nat.sub_0_r; split_and!; (done || lia).
Qed.

(** X1.  On a stream made by the constructor, after any sequence of calls
    (returning or raising, with sends in between or not), each array has
    exactly as many slots as its capacity says, each capacity is positive,
    and each count is at most its capacity: no add call ever indexes past
    its array. *)
Theorem stream_invariant host port strings undirected (lib lib0 : L) self0
        cs :
  __init__ host port strings undirected lib = (lib0, Return self0) →
  wf (run cs (self0, lib0)).1.1.
Proof.
  intros (Hwf & _ & _)%init_facts. by apply run_facts.
Qed.

Lemma insert_fields_raises strings vfrom vto etype weight ts r r' e :
  insert_fields strings vfrom vto etype weight ts (Some r) = (r', Raise e) →
  e = TypeError.
Proof.
  destruct strings, vfrom, vto, etype, weight, ts; intros Hf;
    cbv [insert_fields edge_endpoints edge_type assign bind lift
         isinstance_str c_int64 c_char_p] in Hf;
    by simplify_eq.
Qed.

Lemma delete_fields_raises strings vfrom vto etype r r' e :
  delete_fields strings vfrom vto etype (Some r) = (r', Raise e) →
  e = TypeError.
Proof.
  destruct strings, vfrom, vto, etype; intros Hf;
    cbv [delete_fields edge_endpoints edge_type assign bind lift
         isinstance_str c_int64 c_char_p] in Hf;
    by simplify_eq.
Qed.

Lemma vertex_fields_raises strings vtx vtype weight incr_weight r r' e :
  vertex_fields strings vtx vtype weight incr_weight (Some r)
  = (r', Raise e) →
  e = TypeError.
Proof.
  destruct strings, vtx, vtype, weight, incr_weight; intros Hf;
    cbv [vertex_fields assign bind lift isinstance_str c_int64 c_char_p]
      in Hf;
    by simplify_eq.
Qed.

(** X2.  On a well-formed stream a call can only raise [TypeError] (an
    argument of the wrong type; never [IndexError]), only an add call
    does, and a call that raises appends nothing: the three counts, the
    records below them, the retained arrays and the library state are as
    before the call. *)
Theorem raising_add_appends_nothing c self (lib : L) e :
  wf self → (exec c (self, lib)).2 = Raise e →
  e = TypeError
  ∧ c ≠ SendBatch
  ∧ counts (exec c (self, lib)).1.1 = counts self
  ∧ keeps self (exec c (self, lib)).1.1
  ∧ (exec c (self, lib)).1.2 = lib.
Proof.
  intros Hwf Hraise.
  pose proof (exec_step c self lib Hwf) as (_ & Hcounts & _ & Hkeeps).
  rewrite Hraise in Hcounts. cbn [returned] in Hcounts.
  assert (c ≠ SendBatch) as Hadd.
  { intros ->. cbn [exec] in Hraise.
    by rewrite (proj1 (send_batch_step self lib)) in Hraise. }
  split_and!; [| done | done | by apply Hkeeps |].
  - destruct c as [vfrom vto etype weight ts ins|vfrom vto etype
                  |vtx vtype weight incr|]; [| | | done];
      cbn [exec] in Hraise; unfold local in Hraise.
    + destruct (add_insert_writes vfrom vto etype weight ts ins self Hwf)
        as (r0 & r' & Hf & _).
      destruct (add_insert vfrom vto etype weight ts ins self) as [? o].
      cbn [snd] in *. subst o. by apply insert_fields_raises in Hf.
    + destruct (add_delete_writes vfrom vto etype self Hwf)
        as (r0 & r' & Hf & _).
      destruct (add_delete vfrom vto etype self) as [? o].
      cbn [snd] in *. subst o. by apply delete_fields_raises in Hf.
    + destruct (add_vertex_update_writes vtx vtype weight incr self Hwf)
        as (r0 & r' & Hf & _).
      destruct (add_vertex_update vtx vtype weight incr self) as [? o].
      cbn [snd] in *. subst o. by apply vertex_fields_raises in Hf.
  - destruct c as [vfrom vto etype weight ts ins|vfrom vto etype
                  |vtx vtype weight incr|]; [| | | done];
      cbn [exec]; unfold local.
    + by destruct (add_insert vfrom vto etype weight ts ins self).
    + by destruct (add_delete vfrom vto etype self).
    + by destruct (add_vertex_update vtx vtype weight incr self).
Qed.

(** X3.  On a stream made by the constructor and not yet sent, after any
    sequence of add calls whose arguments have the documented types, the
    first records of each array, up to its count, are exactly the records
    of the calls of its kind, in call order, each as its field assignments
    leave a zeroed slot under the mode flag then in force; every slot from
    the count on is still zeroed.  This holds across any number of
    reallocations. *)
Theorem first_batch_records host port strings undirected (lib lib0 : L)
        self0 cs :
  __init__ host port strings undirected lib = (lib0, Return self0) →
  all_well_typed strings cs = true → no_send cs = true →
  let final := (run cs (self0, lib0)).1.1 in
  (take (insertions_count final) (insertions final)
   = records_of inserted strings cs
   ∧ drop (insertions_count final) (insertions final)
     = replicate (insertions_size final - insertions_count final) E.zero)
  ∧ (take (deletions_count final) (deletions final)
     = records_of deleted strings cs
     ∧ drop (deletions_count final) (deletions final)
       = replicate (deletions_size final - deletions_count final) E.zero)
  ∧ (take (vertex_updates_count final) (vertex_updates final)
     = records_of updated strings cs
     ∧ drop (vertex_updates_count final) (vertex_updates final)
       = replicate (vertex_updates_size final - vertex_updates_count final)
                   V.zero).
Proof.
  intros Hinit Htyped Hsend final.
  pose proof (init_first_batch _ _ _ _ _ _ _ Hinit) as Hfirst.
  apply init_facts in Hinit as (_ & _ & Hmode). rewrite <- Hmode in *.
  pose proof (run_first_batch cs self0 lib0 [] [] [] Hfirst Htyped Hsend)
    as [Hi Hd Hv].
  fold final in Hi, Hd, Hv. cbn [app] in Hi, Hd, Hv.
  split_and!.
  all: match goal with
       | Hh : holds _ _ ?count ?arr _ |- context [?count] =>
           destruct Hh as (-> & -> & _ & _)
       end.
  all: by rewrite ?take_app_length, ?drop_app_length.
Qed.

Lemma at_index_Forall {R} (P : R → Prop) prog idx (arr : list R) :
  (∀ r r' o, P r → prog (Some r) = (Some r', o) → P r') →
  Forall P arr → Forall P (at_index prog idx arr).1.
Proof.
  intros Hprog Harr. unfold at_index.
  destruct (arr !! idx) as [r|] eqn:Hr.
  - destruct (prog (Some r)) as [[r'|] o] eqn:Hp; simpl; [| done].
    apply Forall_insert; [done |].
    apply (Hprog r r' o); [| done].
    by apply (Forall_lookup_1 P arr idx).
  - destruct (prog None) as [[r'|] o]; simpl; [| done].
    rewrite list_insert_ge; [done |]. by apply lookup_ge_None.
Qed.

Lemma grow_Forall {R} (P : R → Prop) (zero : R) size count arr refs :
  P zero → Forall P arr → Forall P (grow zero size count arr refs).1.2.
Proof.
  intros Hzero Harr. unfold grow, memmove. case_decide; simpl; [| done].
  apply Forall_app. split.
  - by apply Forall_take.
  - apply Forall_drop, Forall_replicate. done.
Qed.

Lemma vertex_fields_set_weight strings vtx vtype weight incr_weight r r' o :
  vertex_fields strings vtx vtype weight incr_weight (Some r) = (Some r', o) →
  V.set_weight r' = V.set_weight r.
Proof.
  destruct strings, vtx, vtype, weight, incr_weight; intros Hf;
    cbv [vertex_fields assign bind lift isinstance_str c_int64 c_char_p]
      in Hf;
    by simplify_eq.
Qed.

Lemma exec_set_weight c self (lib : L) :
  Forall (fun r => V.set_weight r = 0) (vertex_updates self) →
  Forall (fun r => V.set_weight r = 0)
         (vertex_updates (exec c (self, lib)).1.1).
Proof.
  intros Hall.
  destruct c as [vfrom vto etype weight ts ins|vfrom vto etype
                |vtx vtype weight incr|]; cbn [exec].
  - unfold local. open_method. destruct self; simpl in *.
    destruct (grow _ _ _ _ _) as [[? ?] ?]; simpl.
    by destruct (at_index _ _ _) as [? [[]|?]].
  - unfold local. open_method. destruct self; simpl in *.
    destruct (grow _ _ _ _ _) as [[? ?] ?]; simpl.
    by destruct (at_index _ _ _) as [? [[]|?]].
  - unfold local. open_method. destruct self; simpl in *.
    pose proof (grow_Forall _ V.zero vertex_updates_size0
                  vertex_updates_count0 _ vertex_updates_refs0 eq_refl Hall)
      as Hgrown.
    destruct (grow _ _ _ _ _) as [[size' arr'] refs']; simpl in *.
    match goal with
    | |- context [at_index ?p ?i ?a] =>
        pose proof (at_index_Forall _ p i a
                      (fun r r' o Hr Hp =>
                         eq_trans (vertex_fields_set_weight _ _ _ _ _ _ _ _ Hp)
                                  Hr)
                      Hgrown) as Hwritten;
        by destruct (at_index p i a) as [? [[]|?]]
    end.
  - unfold send_batch. destruct (stream_send_batch _ _).
    by destruct self.
Qed.

(** X4.  The [weight] argument of [add_vertex_update] is never stored: the
    method assigns to an attribute [weight], which the structure does not
    have, so no call writes the [set_weight] field.  On a stream made by
    the constructor that field is [0] in every slot of the vertex-update
    array after any sequence of calls, whatever weights were passed. *)
Theorem set_weight_never_written host port strings undirected
        (lib lib0 : L) self0 cs :
  __init__ host port strings undirected lib = (lib0, Return self0) →
  Forall (fun r => V.set_weight r = 0)
         (vertex_updates (run cs (self0, lib0)).1.1).
Proof.
  intros Hinit.
  assert (Forall (fun r => V.set_weight r = 0) (vertex_updates self0))
    as Hall.
  { destruct (init_first_batch _ _ _ _ _ _ _ Hinit) as [_ _ (-> & _)].
    by apply Forall_replicate. }
  clear Hinit. revert self0 lib0 Hall.
  induction cs as [|c cs IH]; intros self lib0 Hall; [done |].
  rewrite run_cons. cbn [fst].
  pose proof (exec_set_weight c self lib0 Hall) as Hnext.
  destruct (exec c (self, lib0)) as [[self' lib'] o]. by apply IH.
Qed.

Lemma grow_capacity {R} (zero : R) size count arr refs :
  (size ≤ (grow zero size count arr refs).1.1)%nat.
Proof. unfold grow. case_decide; simpl; lia. Qed.

(** The capacities after one call, on any stream. *)
Lemma exec_capacity c self (lib : L) :
  let self' := (exec c (self, lib)).1.1 in
  (insertions_size self ≤ insertions_size self')%nat
  ∧ (deletions_size self ≤ deletions_size self')%nat
  ∧ (vertex_updates_size self ≤ vertex_updates_size self')%nat.
Proof.
  destruct c as [vfrom vto etype weight ts ins|vfrom vto etype
                |vtx vtype weight incr|]; cbn [exec].
  1-3: unfold local; open_method; destruct self; simpl;
    match goal with
    | |- context [grow ?z ?size ?count ?arr ?refs] =>
        pose proof (grow_capacity z size count arr refs);
        destruct (grow z size count arr refs) as [[? ?] ?]; simpl in *
    end;
    by destruct (at_index _ _ _) as [? [[]|?]].
  unfold send_batch. destruct (stream_send_batch _ _). by destruct self.
Qed.

(** X5.  No call releases storage: over any sequence of calls, sends
    included, each of the three capacities is at least what it was, and
    [send_batch] itself leaves the three arrays with their records and
    the capacities exactly as they were (it resets the counts and the
    reference lists only). *)
Theorem capacity_never_shrinks cs self (lib : L) :
  let final := (run cs (self, lib)).1.1 in
  let sent := (send_batch (self, lib)).1.1 in
  ((insertions_size self ≤ insertions_size final)%nat
   ∧ (deletions_size self ≤ deletions_size final)%nat
   ∧ (vertex_updates_size self ≤ vertex_updates_size final)%nat)
  ∧ (insertions sent = insertions self ∧ deletions sent = deletions self
     ∧ vertex_updates sent = vertex_updates self)
  ∧ (insertions_size sent = insertions_size self
     ∧ deletions_size sent = deletions_size self
     ∧ vertex_updates_size sent = vertex_updates_size self).
Proof.
  cbv zeta. split.
  - revert self lib. induction cs as [|c cs IH]; intros self lib; [done |].
    rewrite run_cons. cbn [fst].
    pose proof (exec_capacity c self lib) as (? & ? & ?).
    destruct (exec c (self, lib)) as [[self' lib'] o].
    destruct (IH self' lib') as (? & ? & ?). simpl in *. lia.
  - unfold send_batch. destruct (stream_send_batch _ _). by destruct self.
Qed.

End StreamMore.

Section StreamMoreExamples.
Import StingerStream Batch Records.

Lemma stream_invariant_witness :
  __init__ "localhost" 10102 true false (Server.start true)
  = ((started true).2, Return (started true).1)
  ∧ wf (run ids_then_names ((started true).1, (started true).2)).1.1.
Proof.
  split; [reflexivity |].
  exact (stream_invariant "localhost" 10102 true false (Server.start true)
           (started true).2 (started true).1 ids_then_names eq_refl).
Defined.

Lemma raising_add_appends_nothing_witness :
  let w := ((started true).1, (started true).2) in
  wf w.1
  ∧ (exec name_for_id w).2 = Raise TypeError
  ∧ counts (exec name_for_id w).1.1 = counts w.1
  ∧ only_strings (exec name_for_id w).1.1 = false.
Proof.
  intros w. split; [exact (started_wf true) |].
  assert ((exec name_for_id w).2 = Raise TypeError) as Hraise
    by (vm_compute; reflexivity).
  split; [exact Hraise |].
  destruct (raising_add_appends_nothing name_for_id w.1 w.2 TypeError
              (started_wf true) Hraise) as (_ & _ & Hcounts & _).
  split; [exact Hcounts |]. vm_compute. reflexivity.
Defined.

Lemma first_batch_records_witness :
  let final := (run mixed_batch ((started true).1, (started true).2)).1.1 in
  all_well_typed true mixed_batch = true
  ∧ no_send mixed_batch = true
  ∧ take (insertions_count final) (insertions final)
    = [StingerEdgeUpdate.mk 0 NULL 1 NULL 2 NULL 5 9 0 0;
       StingerEdgeUpdate.mk 7 NULL 0 (StrPtr "a") 0 (StrPtr "b") 1 0 0 0]
  ∧ take (deletions_count final) (deletions final)
    = [StingerEdgeUpdate.mk 0 (StrPtr "t") 3 NULL 4 NULL 0 0 0 0].
Proof.
  intros final. split; [reflexivity |]. split; [reflexivity |].
  assert (__init__ "localhost" 10102 true false (Server.start true)
          = ((started true).2, Return (started true).1)) as Hinit
    by reflexivity.
  destruct (first_batch_records "localhost" 10102 true false
              (Server.start true) (started true).2 (started true).1
              mixed_batch Hinit eq_refl eq_refl)
    as ([Hins _] & [Hdel _] & _).
  split; [exact Hins | exact Hdel].
Defined.

Lemma set_weight_never_written_witness :
  let final := (run mixed_batch ((started true).1, (started true).2)).1.1 in
  __init__ "localhost" 10102 true false (Server.start true)
  = ((started true).2, Return (started true).1)
  ∧ vertex_updates final !! 0%nat
    = Some (StingerVertexUpdate.mk 0 (StrPtr "a") 2 NULL 0 3 0)
  ∧ Forall (fun r => StingerVertexUpdate.set_weight r = 0)
           (vertex_updates final).
Proof.
  intros final. split; [reflexivity |].
  split; [vm_compute; reflexivity |].
  exact (set_weight_never_written "localhost" 10102 true false
           (Server.start true) (started true).2 (started true).1 mixed_batch
           eq_refl).
Defined.

End StreamMoreExamples.

(* ===================================================================== *)
(** ** More on data views: failures of the constructor, separate fields *)
(* ===================================================================== *)

Section ViewMore.
Import StingerDataArray Layout.
Context `{LibStinger L}.

Ltac open_init :=
  unfold __init__, bind, emit, modify, lift, ret; lazy beta iota zeta.

Lemma index_found x l : ∀ k, index x l = Return k → l !! k = Some x.
Proof.
  induction l as [|y l IH]; intros k; [done |]. cbn [index].
  destruct (String.eqb y x) eqn:Hyx.
  - apply String.eqb_eq in Hyx as ->. by intros [= <-].
  - destruct (index x l) as [i|]; [| done]. intros [= <-]. by apply IH.
Qed.

(** What a constructor call that returns has gone through. *)
Lemma init_returns_inv (lib : L) data_ptr data_desc field_name s log log' v :
  __init__ lib data_ptr data_desc field_name s log = (log', Return v) →
  ∃ tags names k tag base,
    split data_desc = tags :: names
    ∧ index field_name names = Return k
    ∧ String.get k tags = Some tag
    ∧ int_or_value data_ptr = Some base
    ∧ v = mk field_name tag (stinger_alg_max_vertices (Stinger.raw s) lib) s
             (wrap_addr (base + stinger_alg_max_vertices (Stinger.raw s) lib
                                * widths_before tags k)).
Proof.
  open_init. destruct (split data_desc) as [|tags names] eqn:Hsplit; [done |].
  change (drop 1 (tags :: names)) with names.
  destruct (index field_name names) as [k|] eqn:Hindex; [| done].
  unfold list_getitem, str_getitem.
  change ((tags :: names) !! 0%nat) with (Some tags). cbv beta iota.
  destruct (String.get k tags) as [tag|] eqn:Htag; [| done].
  destruct (int_or_value data_ptr) as [base|] eqn:Hbase; [| done].
  rewrite foldl_widths. intros [= _ <-]. exists tags, names, k, tag, base.
  split_and!; try done. do 2 f_equal; lia.
Qed.

Lemma width_pos c : 0 < width c.
Proof. unfold width. by repeat case_match. Qed.

Lemma widths_before_mono tags : ∀ k k',
  (k ≤ k')%nat → widths_before tags k <= widths_before tags k'.
Proof.
  induction tags as [|c tags IH]; intros [|k] [|k'] Hk; simpl; try lia.
  - pose proof (width_pos c).
    assert (0 <= widths_before tags k'); [| lia].
    specialize (IH 0%nat k'). destruct tags; simpl in IH; apply IH; lia.
  - specialize (IH k k'). lia.
Qed.

Lemma load_store_disjoint addr raw m b n :
  b + n <= addr ∨ addr + Z.of_nat (length raw) <= b →
  load (store addr raw m) b n = load m b n.
Proof.
  intros Hdisj. unfold load. apply list_eq. intros i.
  rewrite !list_lookup_fmap.
  destruct (seqZ b n !! i) as [a|] eqn:Ha; [| done]. simpl. f_equal.
  apply lookup_seqZ in Ha as [-> Hi]. apply store_other. lia.
Qed.

Lemma get_out_of_range tags : ∀ k,
  (String.length tags ≤ k)%nat → String.get k tags = None.
Proof.
  induction tags as [|c tags IH]; intros [|k] Hk; simpl in *;
    [done | done | lia | apply IH; lia].
Qed.


(** X7.  A null [c_void_p] as data pointer (its [value] is [None]) with a
    well-formed descriptor and a field name among its names makes the
    constructor raise [TypeError] at the pointer arithmetic, after it has
    printed the descriptor and asked the library for the number of
    vertices. *)
Theorem null_pointer_rejected (lib : L) data_desc field_name s log tags
        names :
  split data_desc = tags :: names →
  length names = String.length tags →
  field_name ∈ names →
  __init__ lib (VoidPtr None) data_desc field_name s log
  = (log ++ [Printed (tags :: names); MaxVertices (Stinger.raw s)],
     Raise TypeError).
Proof.
  intros Hsplit Hlen Hin.
  destruct (index_first field_name names Hin) as (k & Hindex & Hk & _).
  destruct (str_getitem_in_range tags k) as [tag Htag].
  { rewrite <- Hlen. by apply lookup_lt_Some in Hk. }
  open_init. rewrite Hsplit.
  change (drop 1 (tags :: names)) with names. rewrite Hindex.
  unfold list_getitem, str_getitem.
  change ((tags :: names) !! 0%nat) with (Some tags). cbv beta iota.
  rewrite Htag. cbn [int_or_value]. by rewrite <- app_assoc.
Qed.

Lemma get_in_range tags k tag :
  String.get k tags = Some tag → (k < String.length tags)%nat.
Proof.
  intros Hget. destruct (decide (k < String.length tags)%nat); [done |].
  rewrite get_out_of_range in Hget by lia. done.
Qed.

(** The two accessors on an element in the address space, as equations. *)
Lemma getitem_at (lib : L) self i m :
  addressable self (resolve lib self i) →
  __getitem__ lib self i m
  = Return (Elem (CData (element_type self)
                        (load m (data self + resolve lib self i
                                             * sizeof (element_type self))
                              (sizeof (element_type self))))).
Proof.
  intros Hi. pose proof Hi as (_ & [Hi0 _] & _).
  destruct (access_at lib self i (CData (element_type self) []) m)
    as (_ & Hpos & _).
  by destruct (Hpos Hi0 _ (item_addr_at self _ Hi)) as (-> & _).
Qed.

Lemma setitem_at (lib : L) self i k m :
  addressable self (resolve lib self i) → c_type k = element_type self →
  (__setitem__ lib self i k m).1
  = store (data self + resolve lib self i * sizeof (element_type self))
          (c_raw k) m.
Proof.
  intros Hi Hty. pose proof Hi as (_ & [Hi0 _] & _).
  destruct (access_at lib self i k m) as (_ & Hpos & _).
  destruct (Hpos Hi0 _ (item_addr_at self _ Hi)) as (_ & Hset & _).
  by rewrite Hset.
Qed.

(** X8.  Writing one element of a view leaves every other element of the
    same view as it was: for two different indices whose elements lie in
    the address space, after [set(i, k)] with a value of the view's type,
    [get(j)] returns what it returned before. *)
Theorem set_leaves_other_elements (lib : L) self i j k m :
  addressable self (resolve lib self i) →
  addressable self (resolve lib self j) →
  resolve lib self i ≠ resolve lib self j →
  c_type k = element_type self →
  Z.of_nat (length (c_raw k)) = sizeof (element_type self) →
  __getitem__ lib self j (__setitem__ lib self i k m).1
  = __getitem__ lib self j m.
Proof.
  intros Hi Hj Hne Hty Hsize.
  rewrite setitem_at, !getitem_at by done. do 3 f_equal.
  apply load_store_disjoint. rewrite Hsize.
  assert (0 < sizeof (element_type self)) by by destruct (element_type self).
  nia.
Qed.

(** X9.  Two views built over the same blob from the same descriptor, for
    two different field names, do not overlap within their [nv] elements
    when the blob, [nv] records of the descriptor's fields from a non-null
    address on, lies in the address space: writing element [i] of one,
    with [0 <= i < nv] and a value of its type, leaves every element [j]
    of the other, [0 <= j < nv], as it was. *)
Theorem fields_do_not_overlap (lib : L) data_ptr data_desc fx fy s logx logy
        vx vy i j k m tags names base :
  (__init__ lib data_ptr data_desc fx s logx).2 = Return vx →
  (__init__ lib data_ptr data_desc fy s logy).2 = Return vy →
  fx ≠ fy →
  split data_desc = tags :: names →
  int_or_value data_ptr = Some base →
  0 < base →
  base + nv vx * widths_before tags (String.length tags) <= 2 ^ 64 →
  0 <= resolve lib vx i < nv vx → 0 <= resolve lib vy j < nv vy →
  c_type k = element_type vx →
  Z.of_nat (length (c_raw k)) = sizeof (element_type vx) →
  __getitem__ lib vy j (__setitem__ lib vx i k m).1
  = __getitem__ lib vy j m.
Proof.
  intros Hx Hy Hne Hsplit Hbase Hpos Hend Hi Hj Hty Hsize.
  destruct (__init__ lib data_ptr data_desc fx s logx) as [logx' ox] eqn:Ex.
  destruct (__init__ lib data_ptr data_desc fy s logy) as [logy' oy] eqn:Ey.
  cbn [snd] in Hx, Hy. subst ox oy.
  apply init_returns_inv in Ex
    as (tags1 & names1 & kx & tagx & base1 & Hsplit1 & Hkx & Htagx & Hbase1
        & Hvx).
  apply init_returns_inv in Ey
    as (tags2 & names2 & ky & tagy & base2 & Hsplit2 & Hky & Htagy & Hbase2
        & Hvy).
  rewrite Hsplit in Hsplit1, Hsplit2.
  injection Hsplit1 as <- <-. injection Hsplit2 as <- <-.
  rewrite Hbase in Hbase1, Hbase2.
  injection Hbase1 as <-. injection Hbase2 as <-.
  apply index_found in Hkx, Hky.
  assert (kx ≠ ky) as Hk by (intros ->; congruence).
  set (n := stinger_alg_max_vertices (Stinger.raw s) lib) in *.
  assert (element_type vx = pointer_type tagx) as Etx by by subst vx.
  assert (element_type vy = pointer_type tagy) as Ety by by subst vy.
  assert (nv vx = n ∧ nv vy = n) as [Hnx Hny] by by subst vx vy.
  rewrite Hnx in Hi, Hend. rewrite Hny in Hj.
  set (sx := sizeof (pointer_type tagx)) in *.
  set (sy := sizeof (pointer_type tagy)) in *.
  set (W := widths_before tags (String.length tags)) in *.
  pose proof (widths_before_next tags kx tagx Htagx) as Hnx'.
  pose proof (widths_before_next tags ky tagy Htagy) as Hny'.
  rewrite width_sizeof in Hnx', Hny'. fold sx in Hnx'. fold sy in Hny'.
  assert (0 < sx) by (subst sx; by destruct (pointer_type tagx)).
  assert (0 < sy) by (subst sy; by destruct (pointer_type tagy)).
  pose proof (widths_before_mono tags 0 kx ltac:(lia)) as Hx0.
  pose proof (widths_before_mono tags 0 ky ltac:(lia)) as Hy0.
  replace (widths_before tags 0) with 0 in Hx0, Hy0 by by destruct tags.
  pose proof (widths_before_mono tags (S kx) (String.length tags)
                ltac:(apply get_in_range in Htagx; lia)) as HxW.
  pose proof (widths_before_mono tags (S ky) (String.length tags)
                ltac:(apply get_in_range in Htagy; lia)) as HyW.
  fold W in HxW, HyW.
  assert (widths_before tags (S kx) <= widths_before tags ky
          ∨ widths_before tags (S ky) <= widths_before tags kx) as Horder.
  { destruct (decide (kx < ky)%nat).
    - left. apply widths_before_mono. lia.
    - right. apply widths_before_mono. lia. }
  set (wx := widths_before tags kx) in *.
  set (wy := widths_before tags ky) in *.
  assert (0 < n) as Hn by lia.
  assert (n * (wx + sx) <= n * W) as HxnW by (apply Z.mul_le_mono_nonneg_l; lia).
  assert (n * (wy + sy) <= n * W) as HynW by (apply Z.mul_le_mono_nonneg_l; lia).
  assert (2 <= W) as HW by lia.
  assert (n * 2 <= n * W) as Hn2 by (apply Z.mul_le_mono_nonneg_l; lia).
  assert (0 <= n * wx) as Hnwx by (apply Z.mul_nonneg_nonneg; lia).
  assert (0 <= n * wy) as Hnwy by (apply Z.mul_nonneg_nonneg; lia).
  assert ((resolve lib vx i + 1) * sx <= n * sx) as Hix
    by (apply Z.mul_le_mono_nonneg_r; lia).
  assert ((resolve lib vy j + 1) * sy <= n * sy) as Hjy
    by (apply Z.mul_le_mono_nonneg_r; lia).
  assert (0 <= resolve lib vx i * sx) as Hix0
    by (apply Z.mul_nonneg_nonneg; lia).
  assert (0 <= resolve lib vy j * sy) as Hjy0
    by (apply Z.mul_nonneg_nonneg; lia).
  assert (data vx = base + n * wx) as Hdx.
  { subst vx. cbn [data]. apply wrap_addr_small. lia. }
  assert (data vy = base + n * wy) as Hdy.
  { subst vy. cbn [data]. apply wrap_addr_small. lia. }
  assert (addressable vx (resolve lib vx i)) as Hax.
  { unfold addressable. rewrite Hdx, Etx. fold sx. lia. }
  assert (addressable vy (resolve lib vy j)) as Hay.
  { unfold addressable. rewrite Hdy, Ety. fold sy. lia. }
  rewrite setitem_at, !getitem_at by done. do 3 f_equal.
  apply load_store_disjoint. rewrite Hsize, Hdx, Hdy, Etx, Ety.
  fold sx sy.
  assert (n * wx + n * sx <= n * wy ∨ n * wy + n * sy <= n * wx) as [?|?].
  { destruct Horder as [Ho|Ho]; [left | right].
    - apply (Z.mul_le_mono_nonneg_l _ _ n) in Ho; lia.
    - apply (Z.mul_le_mono_nonneg_l _ _ n) in Ho; lia. }
  - right. lia.
  - left. lia.
Qed.

End ViewMore.

Section ViewMoreExamples.
Import StingerDataArray Layout.


Lemma null_pointer_rejected_witness :
  split "dfi x y z" = "dfi" :: ["x"; "y"; "z"]
  ∧ length ["x"; "y"; "z"] = String.length "dfi"
  ∧ "y" ∈ ["x"; "y"; "z"]
  ∧ __init__ (Server.start true) (VoidPtr None) "dfi x y z" "y"
             (Stinger.mk 7) []
    = ([Printed ["dfi"; "x"; "y"; "z"]; MaxVertices 7], Raise TypeError).
Proof.
  assert ("y" ∈ ["x"; "y"; "z"]) as Hin
    by apply list_elem_of_further, list_elem_of_here.
  split_and!; [reflexivity | reflexivity | exact Hin |].
  exact (null_pointer_rejected (Server.start true) "dfi x y z" "y"
           (Stinger.mk 7) [] "dfi" ["x"; "y"; "z"] eq_refl eq_refl Hin).
Defined.

Lemma set_leaves_other_elements_witness :
  let srv := Server.start true in
  let m := (__setitem__ srv view_score (PInt 4) two_and_a_half zeroed).1 in
  resolve srv view_score (PStr "b") = 1
  ∧ addressable view_score 1 ∧ addressable view_score 4
  ∧ __getitem__ srv view_score (PInt 4)
      (__setitem__ srv view_score (PStr "b") two_and_a_half m).1
    = Return (Elem two_and_a_half).
Proof.
  intros srv m.
  assert (addressable view_score (resolve srv view_score (PStr "b"))) as Hi
    by (unfold addressable; simpl; lia).
  assert (addressable view_score (resolve srv view_score (PInt 4))) as Hj
    by (unfold addressable; simpl; lia).
  assert (resolve srv view_score (PStr "b") ≠ resolve srv view_score (PInt 4))
    as Hne by done.
  split_and!; [reflexivity | exact Hi | exact Hj |].
  rewrite (set_leaves_other_elements srv view_score (PStr "b") (PInt 4)
             two_and_a_half m Hi Hj Hne eq_refl eq_refl).
  reflexivity.
Defined.

Lemma fields_do_not_overlap_witness :
  let srv := Server.start true in
  let vz := mk "z" "i" 10 (Stinger.mk 7) 4216 in
  let vy := mk "y" "f" 10 (Stinger.mk 7) 4176 in
  view_of "dfi x y z" "z" = Return vz
  ∧ view_of "dfi x y z" "y" = Return vy
  ∧ 4096 + nv vz * widths_before "dfi" (String.length "dfi") <= 2 ^ 64
  ∧ __getitem__ srv vy (PInt 9)
      (__setitem__ srv vz (PInt 0) seven zeroed).1
    = __getitem__ srv vy (PInt 9) zeroed.
Proof.
  intros srv vz vy.
  assert ("z" ≠ "y") as Hne by done.
  assert (0 < 4096) as Hpos by done.
  assert (4096 + nv vz * widths_before "dfi" (String.length "dfi") <= 2 ^ 64)
    as Hend by done.
  assert (0 <= resolve srv vz (PInt 0) < nv vz) as Hi by done.
  assert (0 <= resolve srv vy (PInt 9) < nv vy) as Hj by done.
  split_and!; [reflexivity | reflexivity | exact Hend |].
  exact (fields_do_not_overlap srv (IntPtr 4096) "dfi x y z" "z" "y"
           (Stinger.mk 7) [] [] vz vy (PInt 0) (PInt 9) seven zeroed
           "dfi" ["x"; "y"; "z"] 4096
           eq_refl eq_refl Hne eq_refl eq_refl Hpos Hend Hi Hj
           eq_refl eq_refl).
Defined.

End ViewMoreExamples.

(* ===================================================================== *)
(** ** The monitor's data arrays and the removal of edges *)
(* ===================================================================== *)

Section MonitorFacts.
Import StingerDataArray StingerAlgState.
Context `{LibStinger L} `{LibMonitor L}.

(** X10.  For an algorithm whose description the library reports as null,
    [get_data_array] raises [ValueError] for every field name: the
    description it parses is the text ["None"], which has no field at
    all. *)
Theorem get_data_array_without_description self name (lib : L) log :
  stinger_alg_state_get_data_description (alg self) lib = None →
  get_data_array self name lib log
  = (log ++ [Printed ["None"]], Raise ValueError).
Proof.
  intros Hnone. unfold get_data_array, get_data_description.
  rewrite Hnone. unfold __init__, bind, emit, modify, lift.
  by replace (split "None") with ["None"] by done.
Qed.

End MonitorFacts.

Section EdgeFacts.
Import StingerEdges.
Context `{LibStinger L} `{LibStingerCore L}.

(** X11.  [remove_edge] and [remove_edge_pair] ask the library to remove
    an edge only when both endpoints are ids above [0].  With an endpoint
    that is the id [0], a negative id, or a name the lookup does not find,
    nothing is removed: the call returns and the library is left as the
    resolution of the edge type left it (a type given by name has been
    created all the same). *)
Theorem remove_edge_needs_positive_ids self vfrom vto etype (lib : L) :
  endpoint self vfrom lib <= 0 ∨ endpoint self vto lib <= 0 →
  remove_edge self vfrom vto etype lib
  = ((edge_type_id self etype lib).2, Return tt)
  ∧ remove_edge_pair self vfrom vto etype lib
    = ((edge_type_id self etype lib).2, Return tt)
  ∧ (∀ z, edge_type_id self (PInt z) lib = (z, lib))
  ∧ (∀ name, (edge_type_id self (PStr name) lib).2
             = (stinger_etype_names_create_type (Stinger.s self) name lib).2).
Proof.
  intros Hskip. unfold remove_edge, remove_edge_pair.
  destruct (edge_type_id self etype lib) as [id lib'] eqn:Heq.
  rewrite !decide_False by lia. split_and!; [done | done | done |].
  intros name. unfold edge_type_id, create_etype.
  by destruct (stinger_etype_names_create_type _ _ _).
Qed.

End EdgeFacts.

Section GraphExamples.
Import StingerDataArray StingerAlgState StingerEdges Graph.

Lemma get_data_array_without_description_witness :
  stinger_alg_state_get_data_description (Some 1) small = None
  ∧ get_data_array (StingerAlgState.mk (Some 1) (Stinger.mk 7)) "x" small []
    = ([Printed ["None"]], Raise ValueError).
Proof.
  split; [reflexivity |].
  exact (get_data_array_without_description
           (StingerAlgState.mk (Some 1) (Stinger.mk 7)) "x" small []
           eq_refl).
Defined.

(** Removing a -> b by name does nothing, since [a] has id 0, but creates
    the edge type; removing b -> c does remove it. *)
Lemma remove_edge_needs_positive_ids_witness :
  let self := Stinger.mk 7 in
  endpoint self (PStr "a") small = 0
  ∧ edges (remove_edge self (PStr "a") (PStr "b") (PStr "t1") small).1
    = edges small
  ∧ types (remove_edge self (PStr "a") (PStr "b") (PStr "t1") small).1
    = ["t0"; "t1"]
  ∧ edges (remove_edge self (PStr "b") (PStr "c") (PInt 0) small).1
    = [(0, 0, 1)].
Proof.
  intros self. split; [reflexivity |].
  assert (endpoint self (PStr "a") small <= 0
          ∨ endpoint self (PStr "b") small <= 0) as Hskip by (left; done).
  destruct (remove_edge_needs_positive_ids self (PStr "a") (PStr "b")
              (PStr "t1") small Hskip) as (-> & _).
  split_and!; reflexivity.
Defined.

End GraphExamples.
